(** * Friends: onboarding, roster, album and media helpers

    A shallow embedding of the application code of the Friends mobile app
    (services/firebase.ts, services/cloudinary.ts, the onboarding screen,
    FriendsTab.tsx and AlbumTab.tsx) together with the properties its
    specification states about it.

    The hosted services (anonymous auth, document database, media CDN) are
    not part of the repository.  They appear here as an explicit world
    state plus a record of oracles that fix what each remote call answers;
    the application code is translated function by function on top. *)

From Stdlib Require Import ZArith NArith Ascii String List Lia DecimalString.
From Stdlib Require Import Sorting.Sorted Sorting.Permutation.
From stdpp Require Import base option list gmap.

Local Open Scope Z_scope.

(** ** JavaScript strings

    A JS string is a sequence of UTF-16 code units.  Template literals and
    [+] are list concatenation. *)

Module JS.

Definition jsstring : Type := list N.

(** Code units of an ASCII literal. *)
Definition lit (s : String.string) : jsstring :=
  List.map N_of_ascii (list_ascii_of_string s).

(** ToBoolean on a string: only the empty string is falsy. *)
Definition truthy (s : jsstring) : bool :=
  match s with
  | [] => false
  | _ :: _ => true
  end.

(** WhiteSpace and LineTerminator code points, the set stripped by
    [String.prototype.trim]. *)
Definition isWhiteSpace (c : N) : bool :=
  ((9 <=? c) && (c <=? 13) ||
   (c =? 32) || (c =? 160) || (c =? 5760) ||
   (8192 <=? c) && (c <=? 8202) ||
   (c =? 8232) || (c =? 8233) || (c =? 8239) || (c =? 8287) ||
   (c =? 12288) || (c =? 65279))%N.

Fixpoint trimStart (s : jsstring) : jsstring :=
  match s with
  | [] => []
  | c :: s' => if isWhiteSpace c then trimStart s' else s
  end.

Definition trimEnd (s : jsstring) : jsstring :=
  rev (trimStart (rev s)).

Definition trim (s : jsstring) : jsstring :=
  trimEnd (trimStart s).

(** [Array.prototype.join] on an array of strings. *)
Fixpoint join (sep : jsstring) (parts : list jsstring) : jsstring :=
  match parts with
  | [] => []
  | [p] => p
  | p :: rest => p ++ sep ++ join sep rest
  end.

(** JS numbers, as far as this program formats and tests them: integral
    values, NaN and the two infinities.  [-0] and [0] print alike and are
    both falsy, so one [Int 0] stands for both.  [Int z] is meant for the
    integers a JS number holds exactly and prints in decimal (below 1e21 in
    magnitude); numbers with a fractional part are not represented. *)
Inductive number : Type :=
| Int (z : Z)
| NaN
| PosInfinity
| NegInfinity.

(** ToBoolean on a number: [0] and [NaN] are falsy. *)
Definition numTruthy (n : number) : bool :=
  match n with
  | Int z => negb (z =? 0)
  | NaN => false
  | PosInfinity | NegInfinity => true
  end.

(** ToString on a number: decimal digits for integral values (the
    exponent notation JS switches to from 1e21 on is outside the model). *)
Definition numToString (n : number) : jsstring :=
  match n with
  | Int z => lit (NilZero.string_of_int (Z.to_int z))
  | NaN => lit "NaN"
  | PosInfinity => lit "Infinity"
  | NegInfinity => lit "-Infinity"
  end.

End JS.

Import JS.

(** ** Regular expressions

    The fragment of JS regular expressions the program uses: a pattern
    anchored by [^] and [$] (no flags, so both anchors are the ends of the
    input), made of atoms with an exact repetition count. *)

Module RegExp.

Inductive Atom : Type :=
| Digit            (* \d : the code units of 0..9 *)
| Char (c : N).    (* a literal character *)

Record Piece : Type := mkPiece {
  atom : Atom;
  count : nat;       (* atom{count} *)
}.

Definition Pattern : Type := list Piece.

Definition matchAtom (a : Atom) (c : N) : bool :=
  match a with
  | Digit => ((48 <=? c) && (c <=? 57))%N
  | Char d => (c =? d)%N
  end.

(** Consume exactly [n] characters matching [a]; the rest of the input. *)
Fixpoint matchRepeat (a : Atom) (n : nat) (s : jsstring) : option jsstring :=
  match n with
  | O => Some s
  | S n' =>
      match s with
      | [] => None
      | c :: s' => if matchAtom a c then matchRepeat a n' s' else None
      end
  end.

Fixpoint matchPieces (p : Pattern) (s : jsstring) : option jsstring :=
  match p with
  | [] => Some s
  | pc :: p' =>
      match matchRepeat (atom pc) (count pc) s with
      | Some rest => matchPieces p' rest
      | None => None
      end
  end.

(** [/^p$/.test(s)] *)
Definition test (p : Pattern) (s : jsstring) : bool :=
  match matchPieces p s with
  | Some [] => true
  | _ => false
  end.

End RegExp.

(** ** types/index.ts *)

Module User.
Record t : Type := mk {
  id : jsstring;
  name : jsstring;
  dob : jsstring;
}.
End User.

Inductive MediaType : Type := image | video.

(** [Omit<AlbumItem, 'id'>], the payload of a document of [albums]. *)
Module AlbumData.
Record t : Type := mk {
  url : jsstring;
  uploaderName : jsstring;
  timestamp : Z;
  type : MediaType;
}.
End AlbumData.

Module AlbumItem.
Record t : Type := mk {
  id : jsstring;
  url : jsstring;
  uploaderName : jsstring;
  timestamp : Z;
  type : MediaType;
}.
End AlbumItem.

(** ** Effects

    Thrown values, outcomes of a call, and the monad of the embedding: a
    computation reads and writes a state and either returns or throws.
    An [await] is sequencing: one asynchronous flow is followed from its
    start to its end, without other handlers interleaved. *)

Module Eff.

Inductive Error : Type := mkError (message : jsstring).

Inductive Outcome (A : Type) : Type :=
| Returned (a : A)
| Thrown (e : Error).
Arguments Returned {A} a.
Arguments Thrown {A} e.

Definition M (S A : Type) : Type := S -> Outcome A * S.

Definition ret {S A : Type} (a : A) : M S A := fun s => (Returned a, s).

Definition throw {S A : Type} (e : Error) : M S A := fun s => (Thrown e, s).

Definition bind {S A B : Type} (m : M S A) (k : A -> M S B) : M S B :=
  fun s =>
    match m s with
    | (Returned a, s') => k a s'
    | (Thrown e, s') => (Thrown e, s')
    end.

Definition get {S : Type} : M S S := fun s => (Returned s, s).

Definition modify {S : Type} (f : S -> S) : M S unit := fun s => (Returned tt, f s).

(** [try { body } catch (error) { handler }] *)
Definition tryCatch {S A : Type} (body : M S A) (handler : Error -> M S A) : M S A :=
  fun s =>
    match body s with
    | (Returned a, s') => (Returned a, s')
    | (Thrown e, s') => handler e s'
    end.

(** [try { body } finally { fin }]: [fin] runs on both exits; if it throws,
    its error replaces the outcome of [body]. *)
Definition tryFinally {S A : Type} (body : M S A) (fin : M S unit) : M S A :=
  fun s =>
    match body s with
    | (r, s') =>
        match fin s' with
        | (Returned _, s'') => (r, s'')
        | (Thrown e, s'') => (Thrown e, s'')
        end
    end.

(** The settled state of a promise, as a value. *)
Definition settle {S A : Type} (m : M S A) : M S (Outcome A) :=
  fun s => match m s with (r, s') => (Returned r, s') end.

(** [await] on an already settled promise. *)
Definition await {S A : Type} (r : Outcome A) : M S A :=
  fun s => (r, s).

(** Run a computation on one component of a pair of states. *)
Definition onFst {S U A : Type} (m : M S A) : M (S * U) A :=
  fun su => match m (fst su) with (r, s') => (r, (s', snd su)) end.

Definition onSnd {S U A : Type} (m : M U A) : M (S * U) A :=
  fun su => match m (snd su) with (r, u') => (r, (fst su, u')) end.

End Eff.

Import Eff.

Declare Scope eff_scope.
Delimit Scope eff_scope with eff.
Notation "x <- m ;; k" := (bind m (fun x => k))
  (at level 100, m at next level, right associativity) : eff_scope.
Notation "m ;;; k" := (bind m (fun _ => k))
  (at level 100, right associativity) : eff_scope.

(** ** Runtime library

    [Promise.all]: it rejects with the reason of the first promise to
    reject, in the order the promises settle, and fulfils with the values in
    input order once every promise has fulfilled. *)
Module Promise.

Fixpoint firstRejected {A : Type} (order : list nat) (promises : list (Outcome A))
    : option Error :=
  match order with
  | [] => None
  | i :: order' =>
      match promises !! i with
      | Some (Thrown e) => Some e
      | _ => firstRejected order' promises
      end
  end.

Fixpoint allFulfilled {A : Type} (promises : list (Outcome A)) : Outcome (list A) :=
  match promises with
  | [] => Returned []
  | Returned a :: rest =>
      match allFulfilled rest with
      | Returned values => Returned (a :: values)
      | Thrown e => Thrown e
      end
  | Thrown e :: _ => Thrown e
  end.

Definition all {A : Type} (order : list nat) (promises : list (Outcome A))
    : Outcome (list A) :=
  match firstRejected order promises with
  | Some e => Thrown e
  | None => allFulfilled promises
  end.

End Promise.

(** [Array.prototype.sort(compareFn)]: the sort is stable, so for a
    consistent comparator its result is the one a stable insertion sort
    computes. *)
Module Array.

Section Sort.

Context {A : Type}.
Variable compareFn : A -> A -> Z.

Fixpoint insert (x : A) (l : list A) : list A :=
  match l with
  | [] => [x]
  | y :: l' => if compareFn x y <=? 0 then x :: l else y :: insert x l'
  end.

Fixpoint sort (l : list A) : list A :=
  match l with
  | [] => []
  | x :: l' => insert x (sort l')
  end.

End Sort.

End Array.

(** ** The world outside the application

    The device (console, alert boxes, navigation), the signed-in user held
    by the auth client, and the two collections of the document database.
    Every remote call advances [tick]; what the remote side answers to the
    call issued at a given tick is fixed by [Services]. *)

Module World.

Record FirebaseUser : Type := mkFirebaseUser {
  uid : jsstring;
}.

(** A document of [albums] with its server-assigned key. *)
Record AlbumDoc : Type := mkAlbumDoc {
  doc_id : jsstring;
  doc_data : AlbumData.t;
}.

(** One part of a multipart form body. *)
Inductive FormValue : Type :=
| FormText (value : jsstring)
| FormFile (uri type name : jsstring).

Record Request : Type := mkRequest {
  req_url : jsstring;
  req_method : jsstring;
  req_body : list (jsstring * FormValue);
  req_headers : list (jsstring * jsstring);
}.

(** The parsed JSON body of the media service's answer. *)
Record UploadResult : Type := mkUploadResult {
  error : option Error;        (* result.error, with its message *)
  secure_url : jsstring;
}.

Record Response : Type := mkResponse {
  ok : bool;
  statusText : jsstring;
  json : Outcome UploadResult;  (* response.json() may reject *)
}.

(** What the device and the network have seen, oldest first. *)
Inductive Event : Type :=
| Alert (title message : jsstring)
| ConsoleError (label : jsstring) (e : Error)
| RouterReplace (path : jsstring)
| SignInRequest
| SignOutRequest
| UsersSet (key : jsstring) (doc : User.t)
| UsersGet
| UsersDocGet (key : jsstring)
| AlbumsAdd (data : AlbumData.t)
| Fetch (req : Request).

Record Services : Type := mkServices {
  (* auth service *)
  signIn_answer : nat -> Outcome FirebaseUser;
  signOut_answer : nat -> option Error;
  (* document database; [None] is an acknowledged call *)
  usersSet_answer : nat -> option Error;
  usersGet_answer : nat -> option Error;
  albumsAdd_answer : nat -> Outcome jsstring;
  (* the query [orderBy('timestamp', 'desc')] over the documents of [albums] *)
  albumsByTimestampDesc : list AlbumDoc -> list AlbumDoc;
  (* media service *)
  fetch_answer : nat -> Request -> Outcome Response;
  (* the order in which the promises of a batch started at a tick settle *)
  settle_order : nat -> list nat;
  (* runtime *)
  date_now : nat -> Z;
  localeCompare : jsstring -> jsstring -> Z;
}.

Record t : Type := mk {
  tick : nat;
  currentUser : option FirebaseUser;   (* authentication.currentUser *)
  users : gmap jsstring User.t;         (* collection 'users', keyed by document id *)
  albums : list AlbumDoc;               (* collection 'albums' *)
  log : list Event;
}.

Definition emit (ev : Event) (w : t) : t :=
  mk (tick w) (currentUser w) (users w) (albums w) (log w ++ [ev]).

Definition advance (w : t) : t :=
  mk (S (tick w)) (currentUser w) (users w) (albums w) (log w).

Definition setCurrentUser (u : option FirebaseUser) (w : t) : t :=
  mk (tick w) u (users w) (albums w) (log w).

Definition setUsers (m : gmap jsstring User.t) (w : t) : t :=
  mk (tick w) (currentUser w) m (albums w) (log w).

Definition setAlbums (l : list AlbumDoc) (w : t) : t :=
  mk (tick w) (currentUser w) (users w) l (log w).

(** A remote call: it is logged, it takes the tick it was issued at, and
    the clock moves on. *)
Definition remote (ev : Event) : M t nat :=
  fun w => (Returned (tick w), advance (emit ev w)).

Definition alert (title message : jsstring) : M t unit :=
  modify (emit (Alert title message)).

Definition consoleError (label : jsstring) (e : Error) : M t unit :=
  modify (emit (ConsoleError label e)).

Definition routerReplace (path : jsstring) : M t unit :=
  modify (emit (RouterReplace path)).

Section Sdk.

Variable svc : Services.

Local Open Scope eff_scope.

(** [authentication.signInAnonymously()]: on success the client holds the
    user the service answered. *)
Definition auth_signInAnonymously : M t FirebaseUser :=
  n <- remote SignInRequest ;;
  match signIn_answer svc n with
  | Returned u => modify (setCurrentUser (Some u)) ;;; ret u
  | Thrown e => throw e
  end.

(** [authentication.signOut()] *)
Definition auth_signOut : M t unit :=
  n <- remote SignOutRequest ;;
  match signOut_answer svc n with
  | None => modify (setCurrentUser None)
  | Some e => throw e
  end.

(** [db.collection('users').doc(key).set(doc)]: full overwrite. *)
Definition users_doc_set (key : jsstring) (doc : User.t) : M t unit :=
  n <- remote (UsersSet key doc) ;;
  match usersSet_answer svc n with
  | None => w <- get ;; modify (setUsers (<[key := doc]> (users w)))
  | Some e => throw e
  end.

(** [db.collection('users').get()]: the documents of one snapshot. *)
Definition users_get : M t (list User.t) :=
  n <- remote UsersGet ;;
  match usersGet_answer svc n with
  | None => w <- get ;; ret (snd <$> map_to_list (users w))
  | Some e => throw e
  end.

(** [db.collection('users').doc(key).get()]; [None] when [!exists]. *)
Definition users_doc_get (key : jsstring) : M t (option User.t) :=
  n <- remote (UsersDocGet key) ;;
  match usersGet_answer svc n with
  | None => w <- get ;; ret (users w !! key)
  | Some e => throw e
  end.

(** [db.collection('albums').add(data)]: the server assigns the key. *)
Definition albums_add (data : AlbumData.t) : M t jsstring :=
  n <- remote (AlbumsAdd data) ;;
  match albumsAdd_answer svc n with
  | Returned key =>
      w <- get ;;
      modify (setAlbums (albums w ++ [mkAlbumDoc key data])) ;;;
      ret key
  | Thrown e => throw e
  end.

(** The result set a listener on
    [db.collection('albums').orderBy('timestamp', 'desc')] is handed. *)
Definition albums_snapshot (w : t) : list AlbumDoc :=
  albumsByTimestampDesc svc (albums w).

(** [fetch(url, init)] *)
Definition fetch (req : Request) : M t Response :=
  n <- remote (Fetch req) ;;
  await (fetch_answer svc n req).

(** [Date.now()] *)
Definition Date_now : M t Z :=
  w <- get ;; ret (date_now svc (tick w)).

End Sdk.

End World.

Import World.

(** ** services/firebase.ts *)

Module Firebase.

Section Firebase.

Variable svc : Services.

Local Open Scope eff_scope.

Definition signInAnonymously : M World.t jsstring :=
  tryCatch
    (userCredential <- auth_signInAnonymously svc ;;
     ret (uid userCredential))
    (fun error =>
       consoleError (lit "Error signing in anonymously:") error ;;;
       throw error).

Definition getCurrentUserUID : M World.t (option jsstring) :=
  w <- get ;;
  ret (match currentUser w with
       | Some currentUser => Some (uid currentUser)
       | None => None
       end).

Definition ensureAuthenticated : M World.t jsstring :=
  currentUID <- getCurrentUserUID ;;
  match currentUID with
  | Some currentUID =>
      if truthy currentUID then ret currentUID else signInAnonymously
  | None => signInAnonymously
  end.

Definition signOut : M World.t unit :=
  tryCatch
    (auth_signOut svc)
    (fun error =>
       consoleError (lit "Error signing out:") error ;;;
       throw error).

End Firebase.

End Firebase.

(** ** services/cloudinary.ts *)

Module Cloudinary.

Definition CLOUD_NAME : jsstring := lit "your-cloud-name".
Definition UPLOAD_PRESET : jsstring := lit "your-upload-preset".

Definition resourceTypeName (resourceType : MediaType) : jsstring :=
  match resourceType with
  | image => lit "image"
  | video => lit "video"
  end.

Definition message (e : Error) : jsstring :=
  match e with mkError m => m end.

Section Upload.

Variable svc : Services.

Local Open Scope eff_scope.

Definition uploadToCloudinary (fileUri : jsstring) (resourceType : MediaType)
    : M World.t jsstring :=
  tryCatch
    (let formData :=
       [ (lit "file",
          FormFile fileUri
            (match resourceType with
             | image => lit "image/jpeg"
             | video => lit "video/mp4"
             end)
            (lit "upload." ++
             match resourceType with
             | image => lit "jpg"
             | video => lit "mp4"
             end));
         (lit "upload_preset", FormText UPLOAD_PRESET);
         (lit "cloud_name", FormText CLOUD_NAME) ] in
     response <-
       fetch svc
         (mkRequest
            (lit "https://api.cloudinary.com/v1_1/" ++ CLOUD_NAME ++ lit "/"
               ++ resourceTypeName resourceType ++ lit "/upload")
            (lit "POST")
            formData
            [(lit "Content-Type", lit "multipart/form-data")]) ;;
     if negb (ok response)
     then throw (mkError (lit "Upload failed: " ++ statusText response))
     else
       result <- await (json response) ;;
       match error result with
       | Some err => throw (mkError (lit "Cloudinary error: " ++ message err))
       | None => ret (secure_url result)
       end)
    (fun error =>
       consoleError (lit "Error uploading to Cloudinary:") error ;;;
       throw error).

(** [fileUris.map(uri => uploadToCloudinary(uri, resourceType))]: every
    upload is started, in input order; each promise is kept with the way it
    settles.  The events of one upload are logged together here; in a run
    the N requests leave before any answer arrives, so of the log of a batch
    only which events it holds is meaningful, not their order. *)
Fixpoint uploadPromises (fileUris : list jsstring) (resourceType : MediaType)
    : M World.t (list (Outcome jsstring)) :=
  match fileUris with
  | [] => ret []
  | uri :: rest =>
      p <- settle (uploadToCloudinary uri resourceType) ;;
      ps <- uploadPromises rest resourceType ;;
      ret (p :: ps)
  end.

Definition uploadMultipleToCloudinary (fileUris : list jsstring)
    (resourceType : MediaType) : M World.t (list jsstring) :=
  tryCatch
    (w <- get ;;
     promises <- uploadPromises fileUris resourceType ;;
     await (Promise.all (settle_order svc (tick w)) promises))
    (fun error =>
       consoleError (lit "Error uploading multiple files to Cloudinary:") error ;;;
       throw error).

End Upload.

Inductive Quality : Type :=
| QAuto
| QNum (n : number).

Inductive Format : Type := FAuto | FWebp | FJpg | FPng.

Inductive Crop : Type := CFill | CFit | CScale | CCrop.

Record Transformations : Type := mkTransformations {
  width : option number;
  height : option number;
  quality : option Quality;
  format : option Format;
  crop : option Crop;
}.

Definition qualityTruthy (q : Quality) : bool :=
  match q with
  | QAuto => true
  | QNum n => numTruthy n
  end.

Definition qualityToString (q : Quality) : jsstring :=
  match q with
  | QAuto => lit "auto"
  | QNum n => numToString n
  end.

Definition formatToString (f : Format) : jsstring :=
  match f with
  | FAuto => lit "auto"
  | FWebp => lit "webp"
  | FJpg => lit "jpg"
  | FPng => lit "png"
  end.

Definition cropToString (c : Crop) : jsstring :=
  match c with
  | CFill => lit "fill"
  | CFit => lit "fit"
  | CScale => lit "scale"
  | CCrop => lit "crop"
  end.

(** [if (field) transforms.push(`prefix${field}`)]: an absent field is
    [undefined], which is falsy; a present one is tested by ToBoolean. *)
Definition pushIf {A : Type} (field : option A) (isTruthy : A -> bool)
    (prefix : jsstring) (show : A -> jsstring)
    (transforms : list jsstring) : list jsstring :=
  match field with
  | Some v => if isTruthy v then transforms ++ [prefix ++ show v] else transforms
  | None => transforms
  end.

Definition getOptimizedImageUrl (publicId : jsstring)
    (transformations : option Transformations) : jsstring :=
  let transformString :=
    match transformations with
    | Some t =>
        let transforms := [] in
        let transforms := pushIf (width t) numTruthy (lit "w_") numToString transforms in
        let transforms := pushIf (height t) numTruthy (lit "h_") numToString transforms in
        let transforms := pushIf (quality t) qualityTruthy (lit "q_") qualityToString transforms in
        let transforms := pushIf (format t) (fun _ => true) (lit "f_") formatToString transforms in
        let transforms := pushIf (crop t) (fun _ => true) (lit "c_") cropToString transforms in
        if (0 <? length transforms)%nat
        then lit "/" ++ join (lit ",") transforms
        else []
    | None => []
    end in
  lit "https://res.cloudinary.com/" ++ CLOUD_NAME ++ lit "/image/upload"
    ++ transformString ++ lit "/" ++ publicId.

End Cloudinary.

(** ** The onboarding screen (OnboardingScreen) *)

Module Onboarding.

(** The component's React state. *)
Record State : Type := mkState {
  name : jsstring;
  dob : jsstring;
  isLoading : bool;
}.

Definition setIsLoading (b : bool) : M State unit :=
  modify (fun st => mkState (name st) (dob st) b).

(** [/^\d{4}-\d{2}-\d{2}$/] *)
Definition dateRegex : RegExp.Pattern :=
  [ RegExp.mkPiece RegExp.Digit 4;
    RegExp.mkPiece (RegExp.Char 45) 1;
    RegExp.mkPiece RegExp.Digit 2;
    RegExp.mkPiece (RegExp.Char 45) 1;
    RegExp.mkPiece RegExp.Digit 2 ].

Section Screen.

Variable svc : Services.

Local Open Scope eff_scope.

(** The part of [handleSubmit] after the three validation guards. *)
Definition save (name dob : jsstring) : M (World.t * State) unit :=
  onSnd (setIsLoading true) ;;;
  tryFinally
    (tryCatch
       (uid <- onFst (Firebase.ensureAuthenticated svc) ;;
        let userData := User.mk uid (trim name) (trim dob) in
        onFst (users_doc_set svc uid userData) ;;;
        onFst (routerReplace (lit "/(tabs)/friends")))
       (fun error =>
          onFst (consoleError (lit "Error saving user data:") error) ;;;
          onFst (alert (lit "Error")
                   (lit "Failed to save your information. Please try again."))))
    (onSnd (setIsLoading false)).

Definition handleSubmit : M (World.t * State) unit :=
  st <- onSnd get ;;
  let name := name st in
  let dob := dob st in
  if negb (truthy (trim name)) then
    onFst (alert (lit "Error") (lit "Please enter your name"))
  else if negb (truthy (trim dob)) then
    onFst (alert (lit "Error") (lit "Please enter your date of birth"))
  else if negb (RegExp.test dateRegex dob) then
    onFst (alert (lit "Error") (lit "Please enter date in YYYY-MM-DD format"))
  else
    save name dob.

End Screen.

End Onboarding.

(** ** The roster view (FriendsTab.tsx) *)

Module FriendsTab.

Record State : Type := mkState {
  users : list User.t;
  currentUserUID : option jsstring;
  isLoading : bool;
  error : option jsstring;
}.

Definition setUsers (l : list User.t) : M State unit :=
  modify (fun st => mkState l (currentUserUID st) (isLoading st) (error st)).

Definition setIsLoading (b : bool) : M State unit :=
  modify (fun st => mkState (users st) (currentUserUID st) b (error st)).

Definition setError (e : option jsstring) : M State unit :=
  modify (fun st => mkState (users st) (currentUserUID st) (isLoading st) e).

(** [snapshot.forEach(doc => usersList.push(doc.data() as User))] *)
Definition collect (snapshot : list User.t) : list User.t :=
  fold_left (fun usersList userData => usersList ++ [userData]) snapshot [].

Section Screen.

Variable svc : Services.

Local Open Scope eff_scope.

Definition byName (a b : User.t) : Z :=
  localeCompare svc (User.name a) (User.name b).

Definition fetchUsers : M (World.t * State) unit :=
  tryFinally
    (tryCatch
       (onSnd (setIsLoading true) ;;;
        onSnd (setError None) ;;;
        usersSnapshot <- onFst (users_get svc) ;;
        let usersList := collect usersSnapshot in
        let usersList := Array.sort byName usersList in
        onSnd (setUsers usersList))
       (fun err =>
          onFst (consoleError (lit "Error fetching users:") err) ;;;
          onSnd (setError (Some (lit "Failed to load friends")))))
    (onSnd (setIsLoading false)).

End Screen.

End FriendsTab.

(** ** The album view (AlbumTab.tsx) *)

Module AlbumTab.

Record State : Type := mkState {
  albumItems : list AlbumItem.t;
  currentUser : option User.t;
  isLoading : bool;
  isUploading : bool;
}.

Definition setAlbumItems (l : list AlbumItem.t) : M State unit :=
  modify (fun st => mkState l (currentUser st) (isLoading st) (isUploading st)).

Definition setCurrentUser (u : option User.t) : M State unit :=
  modify (fun st => mkState (albumItems st) u (isLoading st) (isUploading st)).

Definition setIsLoading (b : bool) : M State unit :=
  modify (fun st => mkState (albumItems st) (currentUser st) b (isUploading st)).

Definition setIsUploading (b : bool) : M State unit :=
  modify (fun st => mkState (albumItems st) (currentUser st) (isLoading st) b).

(** [{ id: doc.id, ...doc.data() } as AlbumItem] *)
Definition itemOf (doc : AlbumDoc) : AlbumItem.t :=
  let data := doc_data doc in
  AlbumItem.mk (doc_id doc) (AlbumData.url data) (AlbumData.uploaderName data)
    (AlbumData.timestamp data) (AlbumData.type data).

(** The first callback handed to [onSnapshot]. *)
Definition onSnapshot (snapshot : list AlbumDoc) : M State unit :=
  let items := fold_left (fun items doc => items ++ [itemOf doc]) snapshot [] in
  bind (setAlbumItems items) (fun _ => setIsLoading false).

Section Screen.

Variable svc : Services.

Local Open Scope eff_scope.

Definition fetchCurrentUser : M (World.t * State) unit :=
  tryCatch
    (uid <- onFst (Firebase.getCurrentUserUID) ;;
     match uid with
     | Some uid =>
         if truthy uid then
           userDoc <- onFst (users_doc_get svc uid) ;;
           match userDoc with
           | Some data => onSnd (setCurrentUser (Some data))
           | None => ret tt
           end
         else ret tt
     | None => ret tt
     end)
    (fun error =>
       onFst (consoleError (lit "Error fetching current user:") error)).

(** The listener fires: the callback is handed the current result set of
    the query. *)
Definition deliver : M (World.t * State) (list AlbumItem.t) :=
  w <- onFst get ;;
  onSnd (onSnapshot (albums_snapshot svc w)) ;;;
  st <- onSnd get ;;
  ret (albumItems st).

(** A document is added to [albums], by this device or another one, and
    the listener fires. *)
Definition added (doc : AlbumDoc) : M (World.t * State) (list AlbumItem.t) :=
  onFst (w <- get ;; modify (setAlbums (albums w ++ [doc]))) ;;;
  deliver.

(** The lists the subscriber is handed: one for the initial load, then one
    per addition. *)
Fixpoint additions (docs : list AlbumDoc) : M (World.t * State) (list (list AlbumItem.t)) :=
  match docs with
  | [] => ret []
  | doc :: rest =>
      items <- added doc ;;
      more <- additions rest ;;
      ret (items :: more)
  end.

Definition subscription (docs : list AlbumDoc) : M (World.t * State) (list (list AlbumItem.t)) :=
  first <- deliver ;;
  more <- additions docs ;;
  ret (first :: more).

Definition uploadMedia (uri : jsstring) (type : MediaType) : M (World.t * State) unit :=
  st <- onSnd get ;;
  match currentUser st with
  | None =>
      onFst (alert (lit "Error") (lit "Please complete your profile first"))
  | Some currentUser =>
      onSnd (setIsUploading true) ;;;
      tryFinally
        (tryCatch
           (onFst (Firebase.ensureAuthenticated svc) ;;;
            cloudinaryUrl <- onFst (Cloudinary.uploadToCloudinary svc uri type) ;;
            now <- onFst (Date_now svc) ;;
            let albumItem :=
              AlbumData.mk cloudinaryUrl (User.name currentUser) now type in
            onFst (albums_add svc albumItem) ;;;
            onFst (alert (lit "Success") (lit "Media uploaded successfully!")))
           (fun error =>
              onFst (consoleError (lit "Error uploading media:") error) ;;;
              onFst (alert (lit "Error")
                       (lit "Failed to upload media. Please try again."))))
        (onSnd (setIsUploading false))
  end.

End Screen.

End AlbumTab.

(** ** Notions the properties are stated with *)

Module Spec.

Definition isDigit (c : N) : Prop := (48 <= c <= 57)%N.

(** The shape YYYY-MM-DD: four digits, a hyphen, two digits, a hyphen, two
    digits, and nothing else. *)
Definition DateShaped (s : jsstring) : Prop :=
  exists y1 y2 y3 y4 m1 m2 d1 d2 : N,
    s = [y1; y2; y3; y4; 45%N; m1; m2; 45%N; d1; d2] /\
    isDigit y1 /\ isDigit y2 /\ isDigit y3 /\ isDigit y4 /\
    isDigit m1 /\ isDigit m2 /\ isDigit d1 /\ isDigit d2.

(** The profile writes among a run of events, in order. *)
Definition usersWrites (events : list Event) : list (jsstring * User.t) :=
  omap (fun ev => match ev with
                  | UsersSet key doc => Some (key, doc)
                  | _ => None
                  end) events.

(** The remote calls among a run of events. *)
Definition isRemote (ev : Event) : bool :=
  match ev with
  | Alert _ _ | ConsoleError _ _ | RouterReplace _ => false
  | _ => true
  end.

(** The transform segment of one option: present means that the field is
    there and passes the truthiness test the helper applies to it. *)
Definition segment {A : Type} (prefix : jsstring) (isTruthy : A -> bool)
    (show : A -> jsstring) (field : option A) : option jsstring :=
  match field with
  | Some v => if isTruthy v then Some (prefix ++ show v) else None
  | None => None
  end.

(** The segments of the present options in the order width, height,
    quality, format, crop. *)
Definition transformSegments (t : Cloudinary.Transformations) : list jsstring :=
  omap (fun o : option jsstring => o)
    [ segment (lit "w_") numTruthy numToString (Cloudinary.width t);
      segment (lit "h_") numTruthy numToString (Cloudinary.height t);
      segment (lit "q_") Cloudinary.qualityTruthy Cloudinary.qualityToString
        (Cloudinary.quality t);
      segment (lit "f_") (fun _ => true) Cloudinary.formatToString
        (Cloudinary.format t);
      segment (lit "c_") (fun _ => true) Cloudinary.cropToString
        (Cloudinary.crop t) ].

(** https://res.cloudinary.com/<cloud>/image/upload/<segments>/<publicId>,
    the segments joined by commas; without segments the path has no
    transform part. *)
Definition optimizedUrl (publicId : jsstring) (t : Cloudinary.Transformations)
    : jsstring :=
  lit "https://res.cloudinary.com/" ++ Cloudinary.CLOUD_NAME ++ lit "/image/upload"
    ++ match transformSegments t with
       | [] => []
       | segs => lit "/" ++ join (lit ",") segs
       end
    ++ lit "/" ++ publicId.

(** How one upload settles, read off the media service's answer: a
    rejected request, a status outside 2xx, an unreadable body and a body
    with an error payload are the four ways to fail. *)
Definition uploadSettles (answer : Outcome Response) : Outcome jsstring :=
  match answer with
  | Thrown e => Thrown e
  | Returned response =>
      if ok response then
        match json response with
        | Thrown e => Thrown e
        | Returned result =>
            match World.error result with
            | Some err =>
                Thrown (mkError (lit "Cloudinary error: " ++ Cloudinary.message err))
            | None => Returned (secure_url result)
            end
        end
      else Thrown (mkError (lit "Upload failed: " ++ statusText response))
  end.

(** A consistent comparator, as [Array.prototype.sort] requires: total and
    transitive on the sign of its result. *)
Record Consistent {A : Type} (compareFn : A -> A -> Z) : Prop := mkConsistent {
  cmp_total : forall a b, compareFn a b <= 0 \/ compareFn b a <= 0;
  cmp_trans : forall a b c, compareFn a b <= 0 -> compareFn b c <= 0 -> compareFn a c <= 0;
}.

Definition byNameLe (svc : Services) (a b : User.t) : Prop :=
  localeCompare svc (User.name a) (User.name b) <= 0.

Definition newerDoc (a b : AlbumDoc) : Prop :=
  AlbumData.timestamp (doc_data b) <= AlbumData.timestamp (doc_data a).

Definition newerItem (a b : AlbumItem.t) : Prop :=
  AlbumItem.timestamp b <= AlbumItem.timestamp a.

(** What the database promises for [orderBy('timestamp', 'desc')]: the
    result set holds the documents of the collection, newest first. *)
Definition OrdersByTimestampDesc (svc : Services) : Prop :=
  forall docs,
    Permutation (albumsByTimestampDesc svc docs) docs /\
    StronglySorted newerDoc (albumsByTimestampDesc svc docs).

End Spec.

(** ** A concrete set of services, for running the code on examples *)

Module Sample.

(** Comparison by code units, a consistent stand-in for [localeCompare]. *)
Fixpoint codeUnitCompare (a b : jsstring) : Z :=
  match a, b with
  | [], [] => 0
  | [], _ :: _ => -1
  | _ :: _, [] => 1
  | x :: a', y :: b' =>
      match (x ?= y)%N with
      | Lt => -1
      | Gt => 1
      | Eq => codeUnitCompare a' b'
      end
  end.

Definition newestFirst (a b : AlbumDoc) : Z :=
  AlbumData.timestamp (doc_data b) - AlbumData.timestamp (doc_data a).

Definition uidOf (n : nat) : jsstring :=
  lit "uid-" ++ numToString (Int (Z.of_nat n)).

(** Every call succeeds. *)
Definition services : Services :=
  {| signIn_answer := fun n => Returned (mkFirebaseUser (uidOf n));
     signOut_answer := fun _ => None;
     usersSet_answer := fun _ => None;
     usersGet_answer := fun _ => None;
     albumsAdd_answer := fun n => Returned (lit "album-" ++ numToString (Int (Z.of_nat n)));
     albumsByTimestampDesc := Array.sort newestFirst;
     fetch_answer := fun n req =>
       Returned (mkResponse true (lit "OK")
                   (Returned (mkUploadResult None
                                (lit "https://res.cloudinary.com/media/"
                                   ++ numToString (Int (Z.of_nat n))))));
     settle_order := fun n => [2; 0; 1]%nat;
     date_now := fun n => 1700000000000 + Z.of_nat n;
     localeCompare := codeUnitCompare |}.

(** As [services], but the media service answers 500 to the call issued
    at tick 1. *)
Definition flaky : Services :=
  {| signIn_answer := signIn_answer services;
     signOut_answer := signOut_answer services;
     usersSet_answer := usersSet_answer services;
     usersGet_answer := usersGet_answer services;
     albumsAdd_answer := albumsAdd_answer services;
     albumsByTimestampDesc := albumsByTimestampDesc services;
     fetch_answer := fun n req =>
       if (n =? 1)%nat
       then Returned (mkResponse false (lit "Internal Server Error")
                        (Thrown (mkError (lit "Unexpected end of JSON input"))))
       else fetch_answer services n req;
     settle_order := settle_order services;
     date_now := date_now services;
     localeCompare := localeCompare services |}.

(** A fresh install: nobody signed in, empty collections. *)
Definition fresh : World.t := World.mk 0 None ∅ [] [].

Definition ada : User.t := User.mk (lit "uid-a") (lit "Ada") (lit "1990-12-25").
Definition bob : User.t := User.mk (lit "uid-b") (lit "Bob") (lit "1985-01-02").
Definition cy : User.t := User.mk (lit "uid-c") (lit "Cy") (lit "2001-07-30").

Definition populated : World.t :=
  World.mk 0 (Some (mkFirebaseUser (lit "uid-a")))
    (<[lit "uid-c" := cy]> (<[lit "uid-a" := ada]> (<[lit "uid-b" := bob]> ∅)))
    [ mkAlbumDoc (lit "p1") (AlbumData.mk (lit "https://m/1") (lit "Ada") 100 image);
      mkAlbumDoc (lit "p2") (AlbumData.mk (lit "https://m/2") (lit "Bob") 300 video) ]
    [].

(** The onboarding form as filled in with a leading space in the name. *)
Definition form : Onboarding.State :=
  Onboarding.mkState (lit " Ada") (lit "1990-12-25") false.

(** The world once the sign-in of a fresh install has been answered. *)
Definition signedIn : World.t :=
  World.mk 1 (Some (mkFirebaseUser (lit "uid-0"))) ∅ [] [SignInRequest].

End Sample.

(** ** The start screen (app/index.tsx) *)

Module HomeScreen.

Record State : Type := mkState {
  isLoading : bool;
  needsOnboarding : bool;
}.

Definition setIsLoading (b : bool) : M State unit :=
  modify (fun st => mkState b (needsOnboarding st)).

Definition setNeedsOnboarding (b : bool) : M State unit :=
  modify (fun st => mkState (isLoading st) b).

(** What the component returns. *)
Inductive View : Type :=
| Spinner
| OnboardingScreen.

Definition render (st : State) : View :=
  if isLoading st then Spinner
  else if needsOnboarding st then OnboardingScreen
  else Spinner.

Section Screen.

Variable svc : Services.

Local Open Scope eff_scope.

Definition checkUserStatus : M (World.t * State) unit :=
  tryFinally
    (tryCatch
       (uid <- onFst (Firebase.ensureAuthenticated svc) ;;
        userDoc <- onFst (users_doc_get svc uid) ;;
        match userDoc with
        | Some _ => onFst (routerReplace (lit "/(tabs)/friends"))
        | None => onSnd (setNeedsOnboarding true)
        end)
       (fun error =>
          onFst (consoleError (lit "Error checking user status:") error) ;;;
          onSnd (setNeedsOnboarding true)))
    (onSnd (setIsLoading false)).

End Screen.

End HomeScreen.

(** ** The roster view, continued: identity tracking and rendering *)

Module FriendsView.

Definition setCurrentUserUID (u : option jsstring) : M FriendsTab.State unit :=
  modify (fun st =>
            FriendsTab.mkState (FriendsTab.users st) u (FriendsTab.isLoading st)
              (FriendsTab.error st)).

(** The callback registered with [onAuthStateChanged]. *)
Definition authStateChanged (user : option FirebaseUser) : M FriendsTab.State unit :=
  setCurrentUserUID (match user with
                     | Some user => Some (uid user)
                     | None => None
                     end).

(** [setCurrentUserUID(getCurrentUserUID())], run on mount. *)
Definition initCurrentUser : M (World.t * FriendsTab.State) unit :=
  bind (onFst Firebase.getCurrentUserUID) (fun u => onSnd (setCurrentUserUID u)).

(** [item.id === currentUserUID] *)
Definition isCurrentUser (st : FriendsTab.State) (item : User.t) : bool :=
  match FriendsTab.currentUserUID st with
  | Some u => bool_decide (User.id item = u)
  | None => false
  end.

(** The text of the name line of [renderUserItem]. *)
Definition userNameText (st : FriendsTab.State) (item : User.t) : jsstring :=
  User.name item ++ (if isCurrentUser st item then lit " (You)" else []).

(** What the component returns: the spinner, the error text, the empty
    notice, or the list with one name line per user. *)
Inductive View : Type :=
| LoadingFriends
| ErrorText (message : jsstring)
| NoFriendsFound
| FriendList (names : list jsstring).

Definition render (st : FriendsTab.State) : View :=
  if FriendsTab.isLoading st then LoadingFriends
  else
    match FriendsTab.error st with
    | Some message =>
        if truthy message then ErrorText message
        else if (length (FriendsTab.users st) =? 0)%nat then NoFriendsFound
        else FriendList (userNameText st <$> FriendsTab.users st)
    | None =>
        if (length (FriendsTab.users st) =? 0)%nat then NoFriendsFound
        else FriendList (userNameText st <$> FriendsTab.users st)
    end.

(** The two effects the component runs on mount, in order. *)
Definition mount (svc : Services) : M (World.t * FriendsTab.State) unit :=
  bind initCurrentUser (fun _ => FriendsTab.fetchUsers svc).

End FriendsView.

(** ** The album view, continued: picking media and rendering *)

Module AlbumView.

(** [String.prototype.startsWith] *)
Fixpoint startsWith (s searchString : jsstring) : bool :=
  match searchString, s with
  | [], _ => true
  | _ :: _, [] => false
  | c :: searchString', d :: s' => (c =? d)%N && startsWith s' searchString'
  end.

(** An asset of the picker's response; both fields are optional. *)
Record Asset : Type := mkAsset {
  uri : option jsstring;
  type : option jsstring;
}.

(** The response the image library hands to the callback. *)
Record PickerResponse : Type := mkPickerResponse {
  didCancel : bool;
  errorMessage : option jsstring;
  assets : option (list Asset);
}.

(** The second callback handed to [onSnapshot]. *)
Definition onSnapshotError (error : Error) : M (World.t * AlbumTab.State) unit :=
  bind (onFst (consoleError (lit "Error fetching album items:") error))
    (fun _ => onSnd (AlbumTab.setIsLoading false)).

(** What the component returns below the header. *)
Inductive View : Type :=
| LoadingAlbum
| NoMediaYet
| Grid (items : list AlbumItem.t).

Definition render (st : AlbumTab.State) : View :=
  if AlbumTab.isLoading st then LoadingAlbum
  else if (length (AlbumTab.albumItems st) =? 0)%nat then NoMediaYet
  else Grid (AlbumTab.albumItems st).

Section Screen.

Variable svc : Services.

(** The callback of [launchImageLibrary] in [pickMedia]. *)
Definition pickMedia (response : PickerResponse) : M (World.t * AlbumTab.State) unit :=
  if didCancel response
     || match errorMessage response with
        | Some m => truthy m
        | None => false
        end
  then ret tt
  else
    match assets response with
    | Some (asset :: _) =>
        match uri asset with
        | Some u =>
            if truthy u then
              AlbumTab.uploadMedia svc u
                (if match type asset with
                    | Some t => startsWith t (lit "video")
                    | None => false
                    end
                 then video else image)
            else ret tt
        | None => ret tt
        end
    | _ => ret tt
    end.

End Screen.

End AlbumView.

(** ** Invariants of the stored data *)

Module Inv.

(** Every profile sits under its own id. *)
Definition KeyedById (m : gmap jsstring User.t) : Prop :=
  forall key doc, m !! key = Some doc -> User.id doc = key.

(** The navigations among a run of events. *)
Definition navigations (events : list Event) : list jsstring :=
  omap (fun ev => match ev with
                  | RouterReplace path => Some path
                  | _ => None
                  end) events.

(** The album writes among a run of events. *)
Definition albumWrites (events : list Event) : list AlbumData.t :=
  omap (fun ev => match ev with
                  | AlbumsAdd data => Some data
                  | _ => None
                  end) events.

(** The media requests among a run of events. *)
Definition fetches (events : list Event) : list Request :=
  omap (fun ev => match ev with
                  | Fetch req => Some req
                  | _ => None
                  end) events.

(** The events a sign-in leaves: the request and, on failure, the logged
    error. *)
Definition isAuthEvent (ev : Event) : bool :=
  match ev with
  | SignInRequest | ConsoleError _ _ => true
  | _ => false
  end.

(** The three guards of the onboarding form as one test. *)
Definition validForm (st : Onboarding.State) : bool :=
  truthy (trim (Onboarding.name st)) &&
  truthy (trim (Onboarding.dob st)) &&
  RegExp.test Onboarding.dateRegex (Onboarding.dob st).

(** The world after the catch block of the onboarding form has run. *)
Definition saveFailed (e : Error) (w : World.t) : World.t :=
  World.mk (tick w) (currentUser w) (users w) (albums w)
    (log w ++ [ConsoleError (lit "Error saving user data:") e;
               Alert (lit "Error")
                 (lit "Failed to save your information. Please try again.")]).

(** The world after the catch block of the album upload has run. *)
Definition uploadFailed (e : Error) (w : World.t) : World.t :=
  World.mk (tick w) (currentUser w) (users w) (albums w)
    (log w ++ [ConsoleError (lit "Error uploading media:") e;
               Alert (lit "Error")
                 (lit "Failed to upload media. Please try again.")]).

End Inv.

Import Inv.

(** ** Services that fail, for running the error paths *)

Module Faulty.

Definition failure : Error := mkError (lit "Network request failed").

(** As the sample services, with one kind of call rejected. *)
Definition noSignIn : Services :=
  {| signIn_answer := fun _ => Thrown failure;
     signOut_answer := signOut_answer Sample.services;
     usersSet_answer := usersSet_answer Sample.services;
     usersGet_answer := usersGet_answer Sample.services;
     albumsAdd_answer := albumsAdd_answer Sample.services;
     albumsByTimestampDesc := albumsByTimestampDesc Sample.services;
     fetch_answer := fetch_answer Sample.services;
     settle_order := settle_order Sample.services;
     date_now := date_now Sample.services;
     localeCompare := localeCompare Sample.services |}.

Definition noSignOut : Services :=
  {| signIn_answer := signIn_answer Sample.services;
     signOut_answer := fun _ => Some failure;
     usersSet_answer := usersSet_answer Sample.services;
     usersGet_answer := usersGet_answer Sample.services;
     albumsAdd_answer := albumsAdd_answer Sample.services;
     albumsByTimestampDesc := albumsByTimestampDesc Sample.services;
     fetch_answer := fetch_answer Sample.services;
     settle_order := settle_order Sample.services;
     date_now := date_now Sample.services;
     localeCompare := localeCompare Sample.services |}.

Definition noWrite : Services :=
  {| signIn_answer := signIn_answer Sample.services;
     signOut_answer := signOut_answer Sample.services;
     usersSet_answer := fun _ => Some failure;
     usersGet_answer := usersGet_answer Sample.services;
     albumsAdd_answer := albumsAdd_answer Sample.services;
     albumsByTimestampDesc := albumsByTimestampDesc Sample.services;
     fetch_answer := fetch_answer Sample.services;
     settle_order := settle_order Sample.services;
     date_now := date_now Sample.services;
     localeCompare := localeCompare Sample.services |}.

Definition noRead : Services :=
  {| signIn_answer := signIn_answer Sample.services;
     signOut_answer := signOut_answer Sample.services;
     usersSet_answer := usersSet_answer Sample.services;
     usersGet_answer := fun _ => Some failure;
     albumsAdd_answer := albumsAdd_answer Sample.services;
     albumsByTimestampDesc := albumsByTimestampDesc Sample.services;
     fetch_answer := fetch_answer Sample.services;
     settle_order := settle_order Sample.services;
     date_now := date_now Sample.services;
     localeCompare := localeCompare Sample.services |}.

Definition noMedia : Services :=
  {| signIn_answer := signIn_answer Sample.services;
     signOut_answer := signOut_answer Sample.services;
     usersSet_answer := usersSet_answer Sample.services;
     usersGet_answer := usersGet_answer Sample.services;
     albumsAdd_answer := albumsAdd_answer Sample.services;
     albumsByTimestampDesc := albumsByTimestampDesc Sample.services;
     fetch_answer := fun _ _ => Thrown failure;
     settle_order := settle_order Sample.services;
     date_now := date_now Sample.services;
     localeCompare := localeCompare Sample.services |}.


(** The album view with Ada's profile loaded, and with none. *)
Definition albumOfAda : AlbumTab.State :=
  AlbumTab.mkState [] (Some Sample.ada) false false.

Definition albumOfNobody : AlbumTab.State :=
  AlbumTab.mkState [] None true false.

(** The roster view before its first fetch, tracking Ada. *)
Definition rosterOfAda : FriendsTab.State :=
  FriendsTab.mkState [] (Some (lit "uid-a")) true None.

(** A second filling of the onboarding form. *)
Definition form2 : Onboarding.State :=
  Onboarding.mkState (lit "Ada Lovelace") (lit "1815-12-10") false.

(** A picked video. *)
Definition pickedVideo : AlbumView.PickerResponse :=
  AlbumView.mkPickerResponse false None
    (Some [AlbumView.mkAsset (Some (lit "file:///clip.mp4")) (Some (lit "video/mp4"))]).

Definition cancelledPick : AlbumView.PickerResponse :=
  AlbumView.mkPickerResponse true None None.

End Faulty.

(** ** Proof steps *)

(** Case analysis on every atom test a hypothesis is stuck on; only the
    matching case survives. *)
Ltac split_atoms H :=
  repeat match type of H with
         | context [if RegExp.matchAtom ?a ?c then _ else _] =>
             let E := fresh "E" in
             destruct (RegExp.matchAtom a c) eqn:E; [| discriminate H]
         end.

(** * Properties *)

(** ** The URL helper *)

Lemma pushIf_segment {A : Type} (field : option A) isTruthy prefix show transforms :
  Cloudinary.pushIf field isTruthy prefix show transforms =
  transforms ++ omap (fun o : option jsstring => o)
                  [Spec.segment prefix isTruthy show field].
Proof.
  unfold Cloudinary.pushIf, Spec.segment.
  destruct field as [v|]; simpl.
  - destruct (isTruthy v); simpl; [reflexivity | now rewrite app_nil_r].
  - now rewrite app_nil_r.
Qed.

Lemma transforms_pushed (t : Cloudinary.Transformations) :
  Cloudinary.pushIf (Cloudinary.crop t) (fun _ => true) (lit "c_") Cloudinary.cropToString
    (Cloudinary.pushIf (Cloudinary.format t) (fun _ => true) (lit "f_") Cloudinary.formatToString
       (Cloudinary.pushIf (Cloudinary.quality t) Cloudinary.qualityTruthy (lit "q_")
          Cloudinary.qualityToString
          (Cloudinary.pushIf (Cloudinary.height t) numTruthy (lit "h_") numToString
             (Cloudinary.pushIf (Cloudinary.width t) numTruthy (lit "w_") numToString []))))
  = Spec.transformSegments t.
Proof.
  rewrite !pushIf_segment. unfold Spec.transformSegments.
  rewrite app_nil_l, <- !app_assoc, <- !omap_app. reflexivity.
Qed.

(** C6. For every publicId and options record, [getOptimizedImageUrl]
    returns the base URL, then the transform segments of the present
    options in the order width, height, quality, format, crop joined by
    commas, then the publicId; the option values are printed as they are.
    In particular ("abc123", {width: 200, quality: "auto"}) gives
    https://res.cloudinary.com/<cloud>/image/upload/w_200,q_auto/abc123. *)
Theorem getOptimizedImageUrl_fixed_order :
  (forall publicId t,
     Cloudinary.getOptimizedImageUrl publicId (Some t) = Spec.optimizedUrl publicId t) /\
  Cloudinary.getOptimizedImageUrl (lit "abc123")
    (Some (Cloudinary.mkTransformations
             (Some (Int 200)) None (Some Cloudinary.QAuto) None None))
  = lit "https://res.cloudinary.com/" ++ Cloudinary.CLOUD_NAME
      ++ lit "/image/upload/w_200,q_auto/abc123".
Proof.
  split; [| reflexivity].
  intros publicId t.
  unfold Cloudinary.getOptimizedImageUrl, Spec.optimizedUrl.
  cbv zeta. rewrite transforms_pushed.
  destruct (Spec.transformSegments t); reflexivity.
Qed.

(** The option values are not validated: a negative width and an infinite
    height are printed like any other. *)
Example getOptimizedImageUrl_unvalidated :
  Cloudinary.getOptimizedImageUrl (lit "abc123")
    (Some (Cloudinary.mkTransformations
             (Some (Int (-5))) (Some PosInfinity) None None (Some Cloudinary.CFit)))
  = lit "https://res.cloudinary.com/your-cloud-name/image/upload/w_-5,h_Infinity,c_fit/abc123".
Proof. reflexivity. Qed.

(** C10. For every publicId, a width, height or quality equal to 0 yields
    the same URL as the same options with that field omitted. *)
Theorem getOptimizedImageUrl_zero_dropped :
  forall publicId w h q f c,
    Cloudinary.getOptimizedImageUrl publicId
      (Some (Cloudinary.mkTransformations (Some (Int 0)) h q f c))
    = Cloudinary.getOptimizedImageUrl publicId
        (Some (Cloudinary.mkTransformations None h q f c)) /\
    Cloudinary.getOptimizedImageUrl publicId
      (Some (Cloudinary.mkTransformations w (Some (Int 0)) q f c))
    = Cloudinary.getOptimizedImageUrl publicId
        (Some (Cloudinary.mkTransformations w None q f c)) /\
    Cloudinary.getOptimizedImageUrl publicId
      (Some (Cloudinary.mkTransformations w h (Some (Cloudinary.QNum (Int 0))) f c))
    = Cloudinary.getOptimizedImageUrl publicId
        (Some (Cloudinary.mkTransformations w h None f c)).
Proof.
  intros publicId w h q f c.
  unfold Cloudinary.getOptimizedImageUrl; cbn [Cloudinary.width Cloudinary.height
    Cloudinary.quality Cloudinary.format Cloudinary.crop].
  repeat split; reflexivity.
Qed.

(** ** Date shape *)

Lemma matchAtom_Digit c : RegExp.matchAtom RegExp.Digit c = true <-> Spec.isDigit c.
Proof.
  unfold RegExp.matchAtom, Spec.isDigit.
  rewrite andb_true_iff, !N.leb_le. tauto.
Qed.

Lemma matchAtom_Char d c : RegExp.matchAtom (RegExp.Char d) c = true <-> c = d.
Proof. unfold RegExp.matchAtom. apply N.eqb_eq. Qed.

Lemma digit_not_space c : Spec.isDigit c -> isWhiteSpace c = false.
Proof.
  unfold Spec.isDigit, isWhiteSpace. intros Hc.
  apply not_true_is_false. intros H.
  rewrite !orb_true_iff, !andb_true_iff, !N.leb_le, !N.eqb_eq in H. lia.
Qed.

Lemma test_dateRegex_shaped s :
  RegExp.test Onboarding.dateRegex s = true <-> Spec.DateShaped s.
Proof.
  split.
  - intros H. unfold RegExp.test, Onboarding.dateRegex in H.
    destruct s as [|y1 [|y2 [|y3 [|y4 [|h1 [|m1 [|m2 [|h2 [|d1 [|d2 [|x s]]]]]]]]]]];
      cbn -[RegExp.matchAtom] in H; split_atoms H; try discriminate H.
    apply matchAtom_Char in E3, E6. subst h1 h2.
    exists y1, y2, y3, y4, m1, m2, d1, d2.
    rewrite <- !matchAtom_Digit. repeat split; assumption.
  - intros (y1 & y2 & y3 & y4 & m1 & m2 & d1 & d2 & -> & H).
    rewrite <- !matchAtom_Digit in H.
    destruct H as (H1 & H2 & H3 & H4 & H5 & H6 & H7 & H8).
    unfold RegExp.test, Onboarding.dateRegex.
    assert (Hh : RegExp.matchAtom (RegExp.Char 45) 45 = true) by reflexivity.
    cbn -[RegExp.matchAtom].
    rewrite H1, H2, H3, H4, Hh, H5, H6, Hh, H7, H8.
    reflexivity.
Qed.

Lemma trim_shaped s : Spec.DateShaped s -> trim s = s.
Proof.
  intros (y1 & y2 & y3 & y4 & m1 & m2 & d1 & d2 & -> & H).
  destruct H as (H1 & _ & _ & _ & _ & _ & _ & H8).
  apply digit_not_space in H1, H8.
  unfold trim, trimEnd. cbn -[isWhiteSpace]. rewrite H1.
  cbn -[isWhiteSpace]. rewrite H8. reflexivity.
Qed.

Lemma shaped_truthy s : Spec.DateShaped s -> truthy s = true.
Proof. intros (y1 & y2 & y3 & y4 & m1 & m2 & d1 & d2 & -> & _). reflexivity. Qed.

(** ** Onboarding *)

Lemma handleSubmit_valid svc w st :
  truthy (trim (Onboarding.name st)) = true ->
  RegExp.test Onboarding.dateRegex (Onboarding.dob st) = true ->
  Onboarding.handleSubmit svc (w, st) =
  Onboarding.save svc (Onboarding.name st) (Onboarding.dob st) (w, st).
Proof.
  intros Hname Hdob.
  assert (Hshape := proj1 (test_dateRegex_shaped _) Hdob).
  unfold Onboarding.handleSubmit, bind at 1, onSnd at 1, get. cbn [fst snd].
  rewrite Hname, (trim_shaped _ Hshape), (shaped_truthy _ Hshape), Hdob.
  reflexivity.
Qed.

Lemma handleSubmit_invalid svc w st :
  truthy (trim (Onboarding.name st)) = false \/
  truthy (trim (Onboarding.dob st)) = false \/
  RegExp.test Onboarding.dateRegex (Onboarding.dob st) = false ->
  exists msg,
    Onboarding.handleSubmit svc (w, st) =
    (Returned tt, (emit (Alert (lit "Error") msg) w, st)).
Proof.
  intros H.
  unfold Onboarding.handleSubmit, bind at 1, onSnd at 1, get. cbn [fst snd].
  destruct (truthy (trim (Onboarding.name st))) eqn:Hn; cbn [negb].
  2: { eexists; reflexivity. }
  destruct (truthy (trim (Onboarding.dob st))) eqn:Hd; cbn [negb].
  2: { eexists; reflexivity. }
  destruct (RegExp.test Onboarding.dateRegex (Onboarding.dob st)) eqn:Hr; cbn [negb].
  2: { eexists; reflexivity. }
  destruct H as [H | [H | H]]; discriminate H.
Qed.


(** C8. A submission that fails validation (empty trimmed name, empty
    trimmed dob, or dob not of the shape) ends with one alert: the form
    state, the signed-in user and both collections are as before, the clock
    of remote calls has not moved, and the alert is the only new event. *)
Theorem handleSubmit_invalid_stays_local :
  forall svc w st,
    truthy (trim (Onboarding.name st)) = false \/
    truthy (trim (Onboarding.dob st)) = false \/
    RegExp.test Onboarding.dateRegex (Onboarding.dob st) = false ->
    exists msg,
      Onboarding.handleSubmit svc (w, st) =
      (Returned tt,
       (World.mk (tick w) (currentUser w) (users w) (albums w)
          (log w ++ [Alert (lit "Error") msg]),
        st)).
Proof.
  intros svc w st H.
  destruct (handleSubmit_invalid svc w st H) as [msg Hrun].
  exists msg. exact Hrun.
Qed.

(** ** Identity *)

Lemma ensureAuthenticated_signed_in svc w u :
  currentUser w = Some u ->
  truthy (uid u) = true ->
  Firebase.ensureAuthenticated svc w = (Returned (uid u), w).
Proof.
  intros Hu Ht.
  unfold Firebase.ensureAuthenticated, Firebase.getCurrentUserUID, bind, get, ret.
  rewrite Hu, Ht. reflexivity.
Qed.

Lemma signInAnonymously_run svc w :
  Firebase.signInAnonymously svc w =
  match signIn_answer svc (tick w) with
  | Returned u =>
      (Returned (uid u),
       World.mk (S (tick w)) (Some u) (users w) (albums w) (log w ++ [SignInRequest]))
  | Thrown e =>
      (Thrown e,
       World.mk (S (tick w)) (currentUser w) (users w) (albums w)
         (log w ++ [SignInRequest;
                    ConsoleError (lit "Error signing in anonymously:") e]))
  end.
Proof.
  unfold Firebase.signInAnonymously, tryCatch, auth_signInAnonymously, bind, remote.
  cbn [tick advance emit].
  destruct (signIn_answer svc (tick w)) as [u | e]; cbn.
  - reflexivity.
  - unfold emit; cbn. now rewrite <- app_assoc.
Qed.

(** What a call of [ensureAuthenticated] does, by cases on the user the
    client holds. *)
Lemma ensureAuthenticated_run svc w :
  Firebase.ensureAuthenticated svc w =
  match currentUser w with
  | Some u =>
      if truthy (uid u) then (Returned (uid u), w)
      else Firebase.signInAnonymously svc w
  | None => Firebase.signInAnonymously svc w
  end.
Proof.
  unfold Firebase.ensureAuthenticated, Firebase.getCurrentUserUID, bind, get, ret.
  destruct (currentUser w) as [u |]; [| reflexivity].
  destruct (truthy (uid u)); reflexivity.
Qed.

(** After a call that returned an identity, the client holds a user with
    that identity. *)
Lemma ensureAuthenticated_holds svc w id w1 :
  Firebase.ensureAuthenticated svc w = (Returned id, w1) ->
  exists u, currentUser w1 = Some u /\ uid u = id.
Proof.
  rewrite ensureAuthenticated_run.
  assert (Hsign : Firebase.signInAnonymously svc w = (Returned id, w1) ->
                  exists u, currentUser w1 = Some u /\ uid u = id).
  { rewrite signInAnonymously_run.
    destruct (signIn_answer svc (tick w)) as [u | e]; intros H; inversion H; subst.
    exists u. split; reflexivity. }
  destruct (currentUser w) as [u |] eqn:Hu; [| exact Hsign].
  destruct (truthy (uid u)); [| exact Hsign].
  intros H; inversion H; subst. exists u. split; [assumption | reflexivity].
Qed.



(** A call of [ensureAuthenticated] leaves both collections alone and
    writes no profile. *)
Lemma ensureAuthenticated_frame svc w r w1 :
  Firebase.ensureAuthenticated svc w = (r, w1) ->
  users w1 = users w /\ albums w1 = albums w /\
  exists events, log w1 = log w ++ events /\ Spec.usersWrites events = [].
Proof.
  rewrite ensureAuthenticated_run.
  assert (Hsign : Firebase.signInAnonymously svc w = (r, w1) ->
                  users w1 = users w /\ albums w1 = albums w /\
                  exists events, log w1 = log w ++ events /\ Spec.usersWrites events = []).
  { rewrite signInAnonymously_run.
    destruct (signIn_answer svc (tick w)) as [u | e]; intros H; inversion H; subst;
      cbn; repeat split; eexists; split; reflexivity. }
  destruct (currentUser w) as [u |]; [| exact Hsign].
  destruct (truthy (uid u)); [| exact Hsign].
  intros H; inversion H; subst. repeat split.
  exists []. now rewrite app_nil_r.
Qed.

Lemma users_doc_set_acknowledged svc key doc w :
  usersSet_answer svc (tick w) = None ->
  users_doc_set svc key doc w =
  (Returned tt,
   World.mk (S (tick w)) (currentUser w) (<[key := doc]> (users w)) (albums w)
     (log w ++ [UsersSet key doc])).
Proof.
  intros Hack. unfold users_doc_set, bind, remote. cbn [tick advance emit].
  rewrite Hack. reflexivity.
Qed.

(** C1, as the code has it.  For a submission with a non-empty trimmed
    name and a dob of the shape YYYY-MM-DD, when [ensureAuthenticated]
    returns an identity and the database acknowledges the write,
    [handleSubmit] writes exactly one profile document to [users], under
    that identity as key; its id is the identity, its name is the entered
    name trimmed, and its dob is the entered dob. *)
Theorem handleSubmit_writes_profile :
  forall svc w st id w1,
    truthy (trim (Onboarding.name st)) = true ->
    RegExp.test Onboarding.dateRegex (Onboarding.dob st) = true ->
    Firebase.ensureAuthenticated svc w = (Returned id, w1) ->
    usersSet_answer svc (tick w1) = None ->
    exists w' st' events,
      let doc := User.mk id (trim (Onboarding.name st)) (Onboarding.dob st) in
      Onboarding.handleSubmit svc (w, st) = (Returned tt, (w', st')) /\
      log w' = log w ++ events /\
      Spec.usersWrites events = [(id, doc)] /\
      users w' = <[id := doc]> (users w).
Proof.
  intros svc w st id w1 Hname Hdob Hauth Hack.
  assert (Hshape := proj1 (test_dateRegex_shaped _) Hdob).
  destruct (ensureAuthenticated_frame _ _ _ _ Hauth)
    as (Husers & _ & evs & Hlog & Hnone).
  rewrite (handleSubmit_valid _ _ _ Hname Hdob).
  unfold Onboarding.save, tryFinally, tryCatch, bind, onSnd, onFst.
  cbn [fst snd Onboarding.setIsLoading modify].
  rewrite Hauth. cbn [fst snd].
  rewrite (users_doc_set_acknowledged _ _ _ _ Hack).
  cbn [fst snd routerReplace modify emit tick currentUser users albums log].
  rewrite (trim_shaped _ Hshape).
  do 2 eexists.
  exists (evs ++ [UsersSet id (User.mk id (trim (Onboarding.name st)) (Onboarding.dob st));
                  RouterReplace (lit "/(tabs)/friends")]).
  cbn zeta.
  split; [reflexivity |].
  unfold emit. cbn [log users]. rewrite Hlog, Husers.
  split; [rewrite <- !app_assoc; reflexivity |].
  split; [| reflexivity].
  unfold Spec.usersWrites in *. rewrite omap_app, Hnone. reflexivity.
Qed.

(** The name is stored trimmed, not as entered: with a leading space in the
    name field the stored name differs from the entered one. *)
Lemma handleSubmit_name_not_as_entered :
  truthy (trim (Onboarding.name Sample.form)) = true /\
  RegExp.test Onboarding.dateRegex (Onboarding.dob Sample.form) = true /\
  exists w' st' id w1 doc,
    Onboarding.handleSubmit Sample.services (Sample.fresh, Sample.form)
    = (Returned tt, (w', st')) /\
    Firebase.ensureAuthenticated Sample.services Sample.fresh = (Returned id, w1) /\
    Spec.usersWrites (log w') = [(id, doc)] /\
    users w' !! id = Some doc /\
    User.name doc = lit "Ada" /\
    User.name doc <> Onboarding.name Sample.form.
Proof.
  split; [reflexivity |]. split; [reflexivity |].
  do 5 eexists.
  split; [vm_compute; reflexivity |].
  split; [vm_compute; reflexivity |].
  split; [vm_compute; reflexivity |].
  split; [vm_compute; reflexivity |].
  split; [reflexivity | discriminate].
Qed.

(** ** Album: upload guard *)

(** C9. An upload attempt while no profile has been loaded ends with one
    alert: the view state, the signed-in user and both collections are as
    before, the clock of remote calls has not moved (no sign-in, no media
    upload, no write to [albums]), and the alert is the only new event. *)
Theorem uploadMedia_without_profile :
  forall svc w st uri type,
    AlbumTab.currentUser st = None ->
    AlbumTab.uploadMedia svc uri type (w, st) =
    (Returned tt,
     (World.mk (tick w) (currentUser w) (users w) (albums w)
        (log w ++ [Alert (lit "Error") (lit "Please complete your profile first")]),
      st)).
Proof.
  intros svc w st uri type Hnone.
  unfold AlbumTab.uploadMedia, bind at 1, onSnd at 1, get. cbn [fst snd].
  rewrite Hnone. reflexivity.
Qed.

(** ** Batch upload *)

(** One upload is one request: it settles as the answer to that request
    says, and the clock moves by one. *)
Lemma uploadToCloudinary_run svc fileUri resourceType w :
  exists req w1,
    Cloudinary.uploadToCloudinary svc fileUri resourceType w
    = (Spec.uploadSettles (fetch_answer svc (tick w) req), w1) /\
    tick w1 = S (tick w) /\
    users w1 = users w /\ albums w1 = albums w.
Proof.
  unfold Cloudinary.uploadToCloudinary, fetch, Spec.uploadSettles.
  match goal with
  | |- context [fetch_answer svc _ ?req] => exists req
  end.
  unfold tryCatch, bind, remote, await, consoleError, throw, ret, modify.
  cbv beta iota zeta. cbn [tick advance emit].
  match goal with
  | |- context [fetch_answer svc (tick w) ?req] =>
      destruct (fetch_answer svc (tick w) req) as [response | e]
  end.
  - destruct (ok response); cbn [negb].
    + destruct (json response) as [result | e].
      * destruct (World.error result) as [err |];
          eexists; (split; [reflexivity |]); repeat split.
      * eexists; (split; [reflexivity |]); repeat split.
    + eexists; (split; [reflexivity |]); repeat split.
  - eexists; (split; [reflexivity |]); repeat split.
Qed.


Lemma allFulfilled_Returned {A : Type} (values : list A) :
  Promise.allFulfilled (Returned <$> values) = Returned values.
Proof.
  induction values as [| v values IH]; [reflexivity |].
  cbn. cbn in IH. now rewrite IH.
Qed.



Lemma firstRejected_Returned {A : Type} order (values : list A) :
  Promise.firstRejected order (Returned <$> values) = None.
Proof.
  induction order as [| i order IH]; [reflexivity |].
  cbn. rewrite list_lookup_fmap.
  destruct (values !! i); cbn; exact IH.
Qed.


Lemma Promise_all_fulfils {A : Type} order (values : list A) :
  Promise.all order (Returned <$> values) = Returned values.
Proof.
  unfold Promise.all. rewrite firstRejected_Returned. apply allFulfilled_Returned.
Qed.


(** Three files, the second answered with a 500: the batch throws that
    upload's error, although the first and third uploads fulfilled. *)
Example uploadMultipleToCloudinary_one_failure :
  exists w1 w',
    Cloudinary.uploadPromises Sample.flaky [lit "a"; lit "b"; lit "c"] image Sample.fresh
    = (Returned [ Returned (lit "https://res.cloudinary.com/media/0");
                  Thrown (mkError (lit "Upload failed: Internal Server Error"));
                  Returned (lit "https://res.cloudinary.com/media/2") ], w1) /\
    Cloudinary.uploadMultipleToCloudinary Sample.flaky [lit "a"; lit "b"; lit "c"] image
      Sample.fresh
    = (Thrown (mkError (lit "Upload failed: Internal Server Error")), w').
Proof. do 2 eexists. split; vm_compute; reflexivity. Qed.

(** ** Sorting *)

Section SortFacts.

Context {A : Type}.
Variable compareFn : A -> A -> Z.
Hypothesis consistent : Spec.Consistent compareFn.

Let le (a b : A) : Prop := compareFn a b <= 0.

Lemma insert_Permutation x l : Permutation (Array.insert compareFn x l) (x :: l).
Proof.
  induction l as [| y l IH]; cbn; [reflexivity |].
  destruct (compareFn x y <=? 0); [reflexivity |].
  rewrite IH. apply perm_swap.
Qed.

Lemma sort_Permutation l : Permutation (Array.sort compareFn l) l.
Proof.
  induction l as [| x l IH]; cbn; [reflexivity |].
  rewrite insert_Permutation. now constructor.
Qed.

Lemma insert_StronglySorted x l :
  StronglySorted le l -> StronglySorted le (Array.insert compareFn x l).
Proof.
  induction 1 as [| y l Hsorted IH Hall]; cbn.
  - repeat constructor.
  - destruct (Z.leb_spec (compareFn x y) 0) as [Hxy | Hxy].
    + constructor; [now constructor |].
      constructor; [exact Hxy |].
      eapply Forall_impl; [exact Hall |].
      intros z Hyz. eapply (Spec.cmp_trans _ consistent); eassumption.
    + constructor; [assumption |].
      eapply Permutation_Forall; [symmetry; apply insert_Permutation |].
      constructor; [| assumption].
      destruct (Spec.cmp_total _ consistent x y) as [H | H]; [lia | exact H].
Qed.

Lemma sort_StronglySorted l : StronglySorted le (Array.sort compareFn l).
Proof.
  induction l as [| x l IH]; cbn; [constructor |].
  now apply insert_StronglySorted.
Qed.

End SortFacts.

Lemma StronglySorted_weaken {A : Type} (R R' : A -> A -> Prop) l :
  (forall a b, R a b -> R' a b) -> StronglySorted R l -> StronglySorted R' l.
Proof.
  intros Himpl. induction 1 as [| x l Hsorted IH Hall]; constructor.
  - exact IH.
  - eapply Forall_impl; [exact Hall |]. intros y. apply Himpl.
Qed.

Lemma pushAll {A B : Type} (f : A -> B) (l : list A) (acc : list B) :
  fold_left (fun items x => items ++ [f x]) l acc = acc ++ map f l.
Proof.
  revert acc. induction l as [| x l IH]; intros acc; cbn.
  - now rewrite app_nil_r.
  - rewrite IH, <- app_assoc. reflexivity.
Qed.

(** ** Roster *)

Lemma byName_Consistent svc :
  Spec.Consistent (localeCompare svc) -> Spec.Consistent (FriendsTab.byName svc).
Proof.
  intros [Htotal Htrans]. unfold FriendsTab.byName. split.
  - intros a b. apply Htotal.
  - intros a b c. apply Htrans.
Qed.

Lemma fetchUsers_run svc w st :
  usersGet_answer svc (tick w) = None ->
  FriendsTab.fetchUsers svc (w, st) =
  (Returned tt,
   (World.mk (S (tick w)) (currentUser w) (users w) (albums w) (log w ++ [UsersGet]),
    FriendsTab.mkState
      (Array.sort (FriendsTab.byName svc) (snd <$> map_to_list (users w)))
      (FriendsTab.currentUserUID st) false None)).
Proof.
  intros Hack.
  unfold FriendsTab.fetchUsers, tryFinally, tryCatch, bind, onSnd, onFst.
  cbn [fst snd FriendsTab.setIsLoading FriendsTab.setError modify].
  unfold users_get, bind, remote. cbn [tick advance emit].
  rewrite Hack. cbn.
  unfold FriendsTab.collect. rewrite pushAll, map_id. reflexivity.
Qed.

(** C2. With a consistent [localeCompare], whenever the database answers
    the fetch, [fetchUsers] leaves in the view the fetched profiles sorted
    non-decreasing by name under [localeCompare], with no error set; on an
    empty collection the list is empty. *)
Theorem fetchUsers_sorted_by_name :
  forall svc,
    Spec.Consistent (localeCompare svc) ->
    forall w st,
      usersGet_answer svc (tick w) = None ->
      exists w' st',
        FriendsTab.fetchUsers svc (w, st) = (Returned tt, (w', st')) /\
        StronglySorted (Spec.byNameLe svc) (FriendsTab.users st') /\
        Permutation (FriendsTab.users st') (snd <$> map_to_list (users w)) /\
        FriendsTab.error st' = None /\
        (users w = ∅ -> FriendsTab.users st' = []).
Proof.
  intros svc Hcmp w st Hack.
  do 2 eexists. split; [apply fetchUsers_run; assumption |].
  cbn [FriendsTab.users FriendsTab.error].
  split; [| split; [| split]].
  - apply (sort_StronglySorted (FriendsTab.byName svc)).
    now apply byName_Consistent.
  - apply sort_Permutation.
  - reflexivity.
  - intros ->. rewrite map_to_list_empty. reflexivity.
Qed.

(** ** Album feed *)

Lemma deliver_run svc w st :
  AlbumTab.deliver svc (w, st) =
  let items := AlbumTab.itemOf <$> albumsByTimestampDesc svc (albums w) in
  (Returned items,
   (w, AlbumTab.mkState items (AlbumTab.currentUser st) false (AlbumTab.isUploading st))).
Proof.
  unfold AlbumTab.deliver, AlbumTab.onSnapshot, albums_snapshot, bind, onFst, onSnd, get, ret.
  cbn [fst snd AlbumTab.setAlbumItems AlbumTab.setIsLoading modify].
  rewrite pushAll. cbn. destruct w; reflexivity.
Qed.

Lemma added_run svc doc w st :
  AlbumTab.added svc doc (w, st) =
  AlbumTab.deliver svc (setAlbums (albums w ++ [doc]) w, st).
Proof.
  unfold AlbumTab.added, bind at 1, onFst at 1, bind at 1, get, modify.
  cbn [fst snd]. reflexivity.
Qed.

(** The list handed over after the k-th addition is the query's answer on
    the collection as it is then. *)
Lemma additions_run svc docs :
  forall w st, exists lists s',
    AlbumTab.additions svc docs (w, st) = (Returned lists, s') /\
    length lists = length docs /\
    forall k items,
      lists !! k = Some items ->
      items = AlbumTab.itemOf <$> albumsByTimestampDesc svc (albums w ++ take (S k) docs).
Proof.
  induction docs as [| doc rest IH]; intros w st.
  - exists [], (w, st). repeat split. intros k items Hk. destruct k; discriminate Hk.
  - cbn [AlbumTab.additions]. unfold bind at 1.
    rewrite added_run, deliver_run. cbv beta iota zeta.
    unfold bind at 1.
    match goal with
    | |- context [AlbumTab.additions svc rest (?w1, ?st1)] =>
        destruct (IH w1 st1) as (lists & s' & Hrun & Hlen & Hlists)
    end.
    rewrite Hrun.
    eexists. exists s'. split; [reflexivity |]. split; [cbn; now rewrite Hlen |].
    intros [| k] items Hk.
    + inversion Hk; subst. cbn [take]. reflexivity.
    + cbn in Hk. rewrite (Hlists k items Hk).
      cbn [albums setAlbums]. rewrite <- app_assoc. reflexivity.
Qed.

Lemma subscription_run svc docs w st :
  exists lists s',
    AlbumTab.subscription svc docs (w, st) = (Returned lists, s') /\
    length lists = S (length docs) /\
    forall k items,
      lists !! k = Some items ->
      items = AlbumTab.itemOf <$> albumsByTimestampDesc svc (albums w ++ take k docs).
Proof.
  unfold AlbumTab.subscription, bind at 1. rewrite deliver_run. cbv beta iota zeta.
  unfold bind at 1.
  match goal with
  | |- context [AlbumTab.additions svc docs (?w1, ?st1)] =>
      destruct (additions_run svc docs w1 st1) as (lists & s' & Hrun & Hlen & Hlists)
  end.
  rewrite Hrun.
  eexists. exists s'. split; [reflexivity |]. split; [cbn; now rewrite Hlen |].
  intros [| k] items Hk.
  - inversion Hk; subst. cbn [take]. now rewrite app_nil_r.
  - cbn in Hk. exact (Hlists k items Hk).
Qed.

Lemma itemOf_StronglySorted docs :
  StronglySorted Spec.newerDoc docs ->
  StronglySorted Spec.newerItem (AlbumTab.itemOf <$> docs).
Proof.
  induction 1 as [| d docs Hsorted IH Hall]; cbn; constructor.
  - exact IH.
  - apply Forall_fmap. eapply Forall_impl; [exact Hall |].
    intros d' Hd'. exact Hd'.
Qed.

(** C3. When the database orders the query by timestamp descending, every
    list handed to the album subscriber, for the initial load and after
    each of any sequence of additions, holds the current entries ordered by
    timestamp descending; when it is non-empty its first element has the
    maximum timestamp among all current entries. *)
Theorem album_feed_newest_first :
  forall svc,
    Spec.OrdersByTimestampDesc svc ->
    forall docs w st,
      exists lists s',
        AlbumTab.subscription svc docs (w, st) = (Returned lists, s') /\
        length lists = S (length docs) /\
        forall k items,
          lists !! k = Some items ->
          let current := albums w ++ take k docs in
          StronglySorted Spec.newerItem items /\
          Permutation items (AlbumTab.itemOf <$> current) /\
          forall first rest,
            items = first :: rest ->
            forall doc, doc ∈ current ->
              AlbumData.timestamp (doc_data doc) <= AlbumItem.timestamp first.
Proof.
  intros svc Hquery docs w st.
  destruct (subscription_run svc docs w st) as (lists & s' & Hrun & Hlen & Hlists).
  exists lists, s'. split; [assumption |]. split; [assumption |].
  intros k items Hk current.
  rewrite (Hlists k items Hk). fold current.
  destruct (Hquery current) as [Hperm Hsorted].
  split; [now apply itemOf_StronglySorted |].
  split; [now apply fmap_Permutation |].
  intros first rest Heq doc Hdoc.
  destruct (albumsByTimestampDesc svc current) as [| d0 q] eqn:Hq; [discriminate Heq |].
  cbn in Heq. inversion Heq; subst first rest. cbn [AlbumTab.itemOf AlbumItem.timestamp].
  rewrite <- Hperm in Hdoc.
  apply elem_of_cons in Hdoc as [-> | Hin]; [lia |].
  apply StronglySorted_inv in Hsorted as [_ Hall].
  rewrite Forall_forall in Hall. exact (Hall doc Hin).
Qed.

(** ** The properties on the sample services *)

Lemma codeUnitCompare_Consistent : Spec.Consistent Sample.codeUnitCompare.
Proof.
  split.
  - intros a. induction a as [| x a IH]; intros [| y b]; cbn; try lia.
    rewrite (N.compare_antisym x y).
    destruct (x ?= y)%N; cbn; try lia. apply IH.
  - intros a. induction a as [| x a IH]; intros [| y b] [| z c]; cbn; try lia.
    destruct (N.compare_spec x y), (N.compare_spec y z), (N.compare_spec x z);
      subst; try lia.
    apply IH.
Qed.

Lemma newestFirst_Consistent : Spec.Consistent Sample.newestFirst.
Proof. split; unfold Sample.newestFirst; intros; lia. Qed.

Lemma sample_OrdersByTimestampDesc : Spec.OrdersByTimestampDesc Sample.services.
Proof.
  intros docs. cbn [albumsByTimestampDesc Sample.services]. split.
  - apply sort_Permutation.
  - eapply StronglySorted_weaken;
      [| apply (sort_StronglySorted Sample.newestFirst newestFirst_Consistent)].
    unfold Spec.newerDoc, Sample.newestFirst. cbn. intros a b Hab. lia.
Qed.

Lemma handleSubmit_writes_profile_witness :
  exists w' st' events,
    Onboarding.handleSubmit Sample.services (Sample.fresh, Sample.form)
    = (Returned tt, (w', st')) /\
    log w' = log Sample.fresh ++ events /\
    Spec.usersWrites events
    = [(lit "uid-0", User.mk (lit "uid-0") (lit "Ada") (lit "1990-12-25"))] /\
    users w'
    = <[lit "uid-0" := User.mk (lit "uid-0") (lit "Ada") (lit "1990-12-25")]>
        (users Sample.fresh).
Proof.
  exact (handleSubmit_writes_profile Sample.services Sample.fresh Sample.form
           (lit "uid-0") Sample.signedIn eq_refl eq_refl eq_refl eq_refl).
Defined.

Lemma fetchUsers_sorted_by_name_witness :
  exists w' st',
    FriendsTab.fetchUsers Sample.services
      (Sample.populated, FriendsTab.mkState [] None true None)
    = (Returned tt, (w', st')) /\
    StronglySorted (Spec.byNameLe Sample.services) (FriendsTab.users st') /\
    Permutation (FriendsTab.users st') (snd <$> map_to_list (users Sample.populated)) /\
    FriendsTab.error st' = None /\
    (users Sample.populated = ∅ -> FriendsTab.users st' = []).
Proof.
  exact (fetchUsers_sorted_by_name Sample.services codeUnitCompare_Consistent
           Sample.populated (FriendsTab.mkState [] None true None) eq_refl).
Defined.

(** On the sample roster the view ends with Ada, Bob, Cy. *)
Example fetchUsers_sample :
  exists w',
    FriendsTab.fetchUsers Sample.services
      (Sample.populated, FriendsTab.mkState [] None true None)
    = (Returned tt,
       (w', FriendsTab.mkState [Sample.ada; Sample.bob; Sample.cy] None false None)).
Proof. eexists. vm_compute. reflexivity. Qed.

Lemma album_feed_newest_first_witness :
  exists lists s',
    AlbumTab.subscription Sample.services
      [mkAlbumDoc (lit "p3") (AlbumData.mk (lit "https://m/3") (lit "Cy") 200 image)]
      (Sample.populated, AlbumTab.mkState [] None true false)
    = (Returned lists, s') /\
    length lists = 2%nat /\
    forall k items,
      lists !! k = Some items ->
      let current :=
        albums Sample.populated
          ++ take k [mkAlbumDoc (lit "p3")
                       (AlbumData.mk (lit "https://m/3") (lit "Cy") 200 image)] in
      StronglySorted Spec.newerItem items /\
      Permutation items (AlbumTab.itemOf <$> current) /\
      forall first rest,
        items = first :: rest ->
        forall doc, doc ∈ current ->
          AlbumData.timestamp (doc_data doc) <= AlbumItem.timestamp first.
Proof.
  exact (album_feed_newest_first Sample.services sample_OrdersByTimestampDesc
           [mkAlbumDoc (lit "p3") (AlbumData.mk (lit "https://m/3") (lit "Cy") 200 image)]
           Sample.populated (AlbumTab.mkState [] None true false)).
Defined.

(** On the sample album the subscriber is handed [p2; p1] and, after the
    addition of p3, [p2; p3; p1] (timestamps 300, 200, 100). *)
Example album_feed_sample :
  exists s',
    AlbumTab.subscription Sample.services
      [mkAlbumDoc (lit "p3") (AlbumData.mk (lit "https://m/3") (lit "Cy") 200 image)]
      (Sample.populated, AlbumTab.mkState [] None true false)
    = (Returned
         [ [ AlbumItem.mk (lit "p2") (lit "https://m/2") (lit "Bob") 300 video;
             AlbumItem.mk (lit "p1") (lit "https://m/1") (lit "Ada") 100 image ];
           [ AlbumItem.mk (lit "p2") (lit "https://m/2") (lit "Bob") 300 video;
             AlbumItem.mk (lit "p3") (lit "https://m/3") (lit "Cy") 200 image;
             AlbumItem.mk (lit "p1") (lit "https://m/1") (lit "Ada") 100 image ] ],
       s').
Proof. eexists. vm_compute. reflexivity. Qed.




(** With the sample services the profile saved for "2024-02-30" carries
    that date. *)
Example handleSubmit_february_30 :
  exists w' st',
    Onboarding.handleSubmit Sample.services
      (Sample.fresh, Onboarding.mkState (lit "Ada") (lit "2024-02-30") false)
    = (Returned tt, (w', st')) /\
    users w' !! lit "uid-0"
    = Some (User.mk (lit "uid-0") (lit "Ada") (lit "2024-02-30")).
Proof. do 2 eexists. split; vm_compute; reflexivity. Qed.

Lemma handleSubmit_invalid_stays_local_witness :
  exists msg,
    Onboarding.handleSubmit Sample.services
      (Sample.populated, Onboarding.mkState (lit "Ada") (lit "1990-2-5") false)
    = (Returned tt,
       (World.mk (tick Sample.populated) (currentUser Sample.populated)
          (users Sample.populated) (albums Sample.populated)
          (log Sample.populated ++ [Alert (lit "Error") msg]),
        Onboarding.mkState (lit "Ada") (lit "1990-2-5") false)).
Proof.
  exact (handleSubmit_invalid_stays_local Sample.services Sample.populated
           (Onboarding.mkState (lit "Ada") (lit "1990-2-5") false)
           (or_intror (or_intror eq_refl))).
Defined.

Lemma uploadMedia_without_profile_witness :
  AlbumTab.uploadMedia Sample.services (lit "file:///photo.jpg") image
    (Sample.populated, AlbumTab.mkState [] None false false)
  = (Returned tt,
     (World.mk (tick Sample.populated) (currentUser Sample.populated)
        (users Sample.populated) (albums Sample.populated)
        (log Sample.populated
           ++ [Alert (lit "Error") (lit "Please complete your profile first")]),
      AlbumTab.mkState [] None false false)).
Proof.
  exact (uploadMedia_without_profile Sample.services Sample.populated
           (AlbumTab.mkState [] None false false) (lit "file:///photo.jpg") image eq_refl).
Defined.

(** * Further properties of the code *)

(** ** Identity: sign-out and failures *)

Lemma signOut_run svc w :
  Firebase.signOut svc w =
  match signOut_answer svc (tick w) with
  | None =>
      (Returned tt,
       World.mk (S (tick w)) None (users w) (albums w) (log w ++ [SignOutRequest]))
  | Some e =>
      (Thrown e,
       World.mk (S (tick w)) (currentUser w) (users w) (albums w)
         (log w ++ [SignOutRequest; ConsoleError (lit "Error signing out:") e]))
  end.
Proof.
  unfold Firebase.signOut, tryCatch, auth_signOut, bind, remote.
  cbn [tick advance emit].
  destruct (signOut_answer svc (tick w)) as [e |]; cbn.
  - unfold emit; cbn. now rewrite <- app_assoc.
  - reflexivity.
Qed.

(** X1.  After an acknowledged sign-out nobody is signed in, and the next
    [ensureAuthenticated] asks the auth service again: it returns whatever
    identity the service then answers, which need not be the old one. *)
Theorem signOut_forgets_identity :
  forall svc w,
    signOut_answer svc (tick w) = None ->
    exists w1,
      Firebase.signOut svc w = (Returned tt, w1) /\
      Firebase.getCurrentUserUID w1 = (Returned None, w1) /\
      users w1 = users w /\ albums w1 = albums w /\
      forall u,
        signIn_answer svc (tick w1) = Returned u ->
        exists w2,
          Firebase.ensureAuthenticated svc w1 = (Returned (uid u), w2) /\
          currentUser w2 = Some u /\
          log w2 = log w ++ [SignOutRequest; SignInRequest].
Proof.
  intros svc w Hack.
  rewrite signOut_run, Hack. eexists. split; [reflexivity |].
  split; [reflexivity |]. split; [reflexivity |]. split; [reflexivity |].
  intros u Hu.
  rewrite ensureAuthenticated_run. cbn [currentUser].
  rewrite signInAnonymously_run. cbn [tick] in *. rewrite Hu.
  eexists. split; [reflexivity |]. split; [reflexivity |].
  cbn [log]. now rewrite <- app_assoc.
Qed.

(** X2.  A sign-out the service rejects is logged and rethrown, and the user
    stays signed in: the next [ensureAuthenticated] returns the same
    identity without a remote call. *)
Theorem signOut_failure_keeps_identity :
  forall svc w u e,
    currentUser w = Some u ->
    truthy (uid u) = true ->
    signOut_answer svc (tick w) = Some e ->
    exists w1,
      Firebase.signOut svc w = (Thrown e, w1) /\
      log w1 = log w ++ [SignOutRequest; ConsoleError (lit "Error signing out:") e] /\
      Firebase.ensureAuthenticated svc w1 = (Returned (uid u), w1).
Proof.
  intros svc w u e Hu Ht Hfail.
  rewrite signOut_run, Hfail. eexists. split; [reflexivity |].
  split; [reflexivity |].
  apply ensureAuthenticated_signed_in; assumption.
Qed.

(** X3.  With nobody signed in and the service rejecting the sign-in,
    [ensureAuthenticated] makes one request, logs the error and rethrows it;
    nobody is signed in afterwards, and nothing is retried: a second call
    is a fresh sign-in attempt at the next tick. *)
Theorem ensureAuthenticated_failure_propagates :
  forall svc w e,
    currentUser w = None ->
    signIn_answer svc (tick w) = Thrown e ->
    exists w1,
      Firebase.ensureAuthenticated svc w = (Thrown e, w1) /\
      currentUser w1 = None /\
      tick w1 = S (tick w) /\
      users w1 = users w /\ albums w1 = albums w /\
      log w1 = log w ++ [SignInRequest;
                         ConsoleError (lit "Error signing in anonymously:") e] /\
      forall u,
        signIn_answer svc (S (tick w)) = Returned u ->
        exists w2,
          Firebase.ensureAuthenticated svc w1 = (Returned (uid u), w2) /\
          currentUser w2 = Some u.
Proof.
  intros svc w e Hnone Hfail.
  rewrite ensureAuthenticated_run, Hnone, signInAnonymously_run, Hfail.
  eexists. split; [reflexivity |]. cbn [currentUser tick users albums log].
  repeat (split; [first [assumption | reflexivity] |]).
  intros u Hu.
  rewrite ensureAuthenticated_run. cbn [currentUser]. rewrite Hnone.
  rewrite signInAnonymously_run. cbn [tick]. rewrite Hu.
  eexists. split; reflexivity.
Qed.

(** ** Onboarding: every way a submission can end *)

(** What [ensureAuthenticated] adds to the log are sign-in events only;
    both collections are as before. *)
Lemma ensureAuthenticated_events svc w r w1 :
  Firebase.ensureAuthenticated svc w = (r, w1) ->
  users w1 = users w /\ albums w1 = albums w /\
  exists events, log w1 = log w ++ events /\ Forall (fun ev => isAuthEvent ev = true) events.
Proof.
  rewrite ensureAuthenticated_run.
  assert (Hsign : Firebase.signInAnonymously svc w = (r, w1) ->
                  users w1 = users w /\ albums w1 = albums w /\
                  exists events, log w1 = log w ++ events /\
                                 Forall (fun ev => isAuthEvent ev = true) events).
  { rewrite signInAnonymously_run.
    destruct (signIn_answer svc (tick w)) as [u | e]; intros H; inversion H; subst;
      cbn; repeat split; eexists; (split; [reflexivity |]); repeat constructor. }
  destruct (currentUser w) as [u |]; [| exact Hsign].
  destruct (truthy (uid u)); [| exact Hsign].
  intros H; inversion H; subst. repeat split.
  exists []. split; [now rewrite app_nil_r | constructor].
Qed.

Lemma authEvents_silent events :
  Forall (fun ev => isAuthEvent ev = true) events ->
  Spec.usersWrites events = [] /\ navigations events = [] /\
  albumWrites events = [] /\ fetches events = [].
Proof.
  induction 1 as [| ev events Hev _ IH]; [repeat split |].
  destruct IH as (H1 & H2 & H3 & H4).
  unfold Spec.usersWrites, navigations, albumWrites, fetches in *.
  destruct ev; try discriminate Hev; cbn; auto.
Qed.

(** The run of the save step, by cases on what the auth service and the
    database answer. *)
Lemma save_run svc name dob w st :
  Onboarding.save svc name dob (w, st) =
  let st' := Onboarding.mkState (Onboarding.name st) (Onboarding.dob st) false in
  match Firebase.ensureAuthenticated svc w with
  | (Returned id, w1) =>
      let doc := User.mk id (trim name) (trim dob) in
      match usersSet_answer svc (tick w1) with
      | None =>
          (Returned tt,
           (World.mk (S (tick w1)) (currentUser w1) (<[id := doc]> (users w1))
              (albums w1)
              (log w1 ++ [UsersSet id doc; RouterReplace (lit "/(tabs)/friends")]),
            st'))
      | Some e =>
          (Returned tt,
           (saveFailed e
              (World.mk (S (tick w1)) (currentUser w1) (users w1) (albums w1)
                 (log w1 ++ [UsersSet id doc])),
            st'))
      end
  | (Thrown e, w1) => (Returned tt, (saveFailed e w1, st'))
  end.
Proof.
  unfold Onboarding.save, tryFinally, tryCatch, bind, onSnd, onFst.
  cbn [fst snd Onboarding.setIsLoading modify].
  destruct (Firebase.ensureAuthenticated svc w) as [[id | e] w1]; cbn [fst snd].
  - unfold users_doc_set, bind, remote. cbn [tick advance emit].
    destruct (usersSet_answer svc (tick w1)) as [e |]; cbn.
    + unfold saveFailed, emit; cbn. rewrite <- !app_assoc. reflexivity.
    + unfold emit; cbn. rewrite <- !app_assoc. reflexivity.
  - cbn. unfold saveFailed, emit; cbn. rewrite <- !app_assoc. reflexivity.
Qed.

Lemma handleSubmit_cases svc w st :
  (validForm st = true /\
   Onboarding.handleSubmit svc (w, st) =
   Onboarding.save svc (Onboarding.name st) (Onboarding.dob st) (w, st)) \/
  (validForm st = false /\
   exists msg,
     Onboarding.handleSubmit svc (w, st) =
     (Returned tt, (emit (Alert (lit "Error") msg) w, st))).
Proof.
  unfold validForm.
  destruct (truthy (trim (Onboarding.name st))) eqn:Hn; cbn [andb].
  - destruct (truthy (trim (Onboarding.dob st))) eqn:Hd; cbn [andb].
    + destruct (RegExp.test Onboarding.dateRegex (Onboarding.dob st)) eqn:Hr.
      * left. split; [reflexivity |]. now apply handleSubmit_valid.
      * right. split; [reflexivity |]. apply handleSubmit_invalid. auto.
    + right. split; [reflexivity |]. apply handleSubmit_invalid. auto.
  - right. split; [reflexivity |]. apply handleSubmit_invalid. auto.
Qed.

(** X4.  [handleSubmit] never throws: every failure ends in an alert.  The text
    of the two form fields and the album collection are as before; after a
    submission that passed validation the loading flag is off again, and
    after one that did not the form state is untouched. *)
Theorem handleSubmit_never_throws :
  forall svc w st,
    exists w' st',
      Onboarding.handleSubmit svc (w, st) = (Returned tt, (w', st')) /\
      Onboarding.name st' = Onboarding.name st /\
      Onboarding.dob st' = Onboarding.dob st /\
      albums w' = albums w /\
      (if validForm st then Onboarding.isLoading st' = false else st' = st).
Proof.
  intros svc w st.
  destruct (handleSubmit_cases svc w st) as [[Hv Hrun] | [Hv [msg Hrun]]];
    rewrite Hrun, Hv.
  - rewrite save_run. cbv zeta.
    destruct (Firebase.ensureAuthenticated svc w) as [[id | e] w1] eqn:Hauth;
      destruct (ensureAuthenticated_frame _ _ _ _ Hauth) as (_ & Halb & _).
    + destruct (usersSet_answer svc (tick w1)); do 2 eexists;
        (split; [reflexivity |]); repeat split; exact Halb.
    + do 2 eexists; (split; [reflexivity |]); repeat split; exact Halb.
  - do 2 eexists. split; [reflexivity |]. repeat split.
Qed.

(** X5.  When the sign-in fails during a valid submission, no profile is
    written and the app does not navigate: the collection is as before and
    the run ends with the logged error and the failure alert. *)
Theorem handleSubmit_auth_failure :
  forall svc w st e w1,
    validForm st = true ->
    Firebase.ensureAuthenticated svc w = (Thrown e, w1) ->
    exists st',
      Onboarding.handleSubmit svc (w, st) = (Returned tt, (saveFailed e w1, st')) /\
      users (saveFailed e w1) = users w /\
      exists events,
        log (saveFailed e w1) = log w ++ events /\
        Spec.usersWrites events = [] /\
        navigations events = [].
Proof.
  intros svc w st e w1 Hv Hauth.
  destruct (handleSubmit_cases svc w st) as [[_ Hrun] | [Hv' _]]; [| congruence].
  rewrite Hrun, save_run, Hauth. cbv zeta.
  eexists. split; [reflexivity |].
  destruct (ensureAuthenticated_events _ _ _ _ Hauth) as (Husers & _ & evs & Hlog & Hevs).
  destruct (authEvents_silent _ Hevs) as (Hw & Hn & _).
  split; [exact Husers |].
  exists (evs ++ [ConsoleError (lit "Error saving user data:") e;
                  Alert (lit "Error")
                    (lit "Failed to save your information. Please try again.")]).
  cbn [saveFailed log]. rewrite Hlog, <- app_assoc. split; [reflexivity |].
  unfold Spec.usersWrites, navigations in *.
  rewrite !omap_app, Hw, Hn. split; reflexivity.
Qed.

(** The three ways a run of [handleSubmit] can end, with what each leaves
    in the log and in the collection. *)
Lemma handleSubmit_outcomes svc w st :
  exists w' st' events,
    Onboarding.handleSubmit svc (w, st) = (Returned tt, (w', st')) /\
    log w' = log w ++ events /\
    ((Spec.usersWrites events = [] /\ navigations events = [] /\
      users w' = users w)
     \/
     (exists id,
        let doc := User.mk id (trim (Onboarding.name st)) (Onboarding.dob st) in
        validForm st = true /\
        Spec.usersWrites events = [(id, doc)] /\ navigations events = [] /\
        users w' = users w)
     \/
     (exists id u,
        let doc := User.mk id (trim (Onboarding.name st)) (Onboarding.dob st) in
        validForm st = true /\
        Spec.usersWrites events = [(id, doc)] /\
        navigations events = [lit "/(tabs)/friends"] /\
        users w' = <[id := doc]> (users w) /\
        currentUser w' = Some u /\ uid u = id)).
Proof.
  destruct (handleSubmit_cases svc w st) as [[Hv Hrun] | [Hv [msg Hrun]]];
    rewrite Hrun.
  2: { do 2 eexists. exists [Alert (lit "Error") msg].
       split; [reflexivity |]. split; [reflexivity |]. left. repeat split. }
  assert (Hshape : Spec.DateShaped (Onboarding.dob st)).
  { apply test_dateRegex_shaped. unfold validForm in Hv.
    rewrite !andb_true_iff in Hv. tauto. }
  rewrite save_run, (trim_shaped _ Hshape). cbv zeta.
  destruct (Firebase.ensureAuthenticated svc w) as [[id | e] w1] eqn:Hauth;
    destruct (ensureAuthenticated_events _ _ _ _ Hauth)
      as (Husers & _ & evs & Hlog & Hevs);
    destruct (authEvents_silent _ Hevs) as (Hw & Hn & _);
    unfold Spec.usersWrites, navigations in *.
  - destruct (usersSet_answer svc (tick w1)) as [e |].
    + do 2 eexists.
      exists (evs ++ [UsersSet id (User.mk id (trim (Onboarding.name st)) (Onboarding.dob st));
                      ConsoleError (lit "Error saving user data:") e;
                      Alert (lit "Error")
                        (lit "Failed to save your information. Please try again.")]).
      split; [reflexivity |].
      split; [cbn [saveFailed log]; rewrite Hlog, <- !app_assoc; reflexivity |].
      right; left. exists id. cbv zeta.
      rewrite !omap_app, Hw, Hn. repeat split; assumption.
    + do 2 eexists.
      exists (evs ++ [UsersSet id (User.mk id (trim (Onboarding.name st)) (Onboarding.dob st));
                      RouterReplace (lit "/(tabs)/friends")]).
      split; [reflexivity |].
      split; [cbn [log]; rewrite Hlog, <- !app_assoc; reflexivity |].
      right; right.
      destruct (ensureAuthenticated_holds _ _ _ _ Hauth) as (u & Hu & Huid).
      exists id, u. cbv zeta.
      rewrite !omap_app, Hw, Hn. cbn [users currentUser]. rewrite Husers.
      repeat split; assumption.
  - do 2 eexists.
    exists (evs ++ [ConsoleError (lit "Error saving user data:") e;
                    Alert (lit "Error")
                      (lit "Failed to save your information. Please try again.")]).
    split; [reflexivity |].
    split; [cbn [saveFailed log]; rewrite Hlog, <- !app_assoc; reflexivity |].
    left. rewrite !omap_app, Hw, Hn. repeat split; assumption.
Qed.

(** X6.  When the database rejects the write of a valid submission, the write
    was attempted once, the collection is as before, and the app does not
    navigate. *)
Theorem handleSubmit_write_rejected :
  forall svc w st id w1 e,
    validForm st = true ->
    Firebase.ensureAuthenticated svc w = (Returned id, w1) ->
    usersSet_answer svc (tick w1) = Some e ->
    exists w' st' events,
      Onboarding.handleSubmit svc (w, st) = (Returned tt, (w', st')) /\
      log w' = log w ++ events /\
      Spec.usersWrites events
      = [(id, User.mk id (trim (Onboarding.name st)) (Onboarding.dob st))] /\
      navigations events = [] /\
      users w' = users w /\
      Onboarding.isLoading st' = false.
Proof.
  intros svc w st id w1 e Hv Hauth Hrej.
  destruct (handleSubmit_cases svc w st) as [[_ Hrun] | [Hv' _]]; [| congruence].
  assert (Hshape : Spec.DateShaped (Onboarding.dob st)).
  { apply test_dateRegex_shaped. unfold validForm in Hv.
    rewrite !andb_true_iff in Hv. tauto. }
  rewrite Hrun, save_run, Hauth, (trim_shaped _ Hshape). cbv zeta. rewrite Hrej.
  destruct (ensureAuthenticated_events _ _ _ _ Hauth)
    as (Husers & _ & evs & Hlog & Hevs).
  destruct (authEvents_silent _ Hevs) as (Hw & Hn & _).
  do 2 eexists.
  exists (evs ++ [UsersSet id (User.mk id (trim (Onboarding.name st)) (Onboarding.dob st));
                  ConsoleError (lit "Error saving user data:") e;
                  Alert (lit "Error")
                    (lit "Failed to save your information. Please try again.")]).
  split; [reflexivity |].
  split; [cbn [saveFailed log]; rewrite Hlog, <- !app_assoc; reflexivity |].
  unfold Spec.usersWrites, navigations in *.
  rewrite !omap_app, Hw, Hn. repeat split. exact Husers.
Qed.

(** X7.  Whenever a run of [handleSubmit] navigates, it navigates once, to the
    friends tab, and the profile of the signed-in user is then stored under
    that user's identity with the trimmed name and the entered dob. *)
Theorem handleSubmit_navigates_only_when_stored :
  forall svc w st r w' st' events,
    Onboarding.handleSubmit svc (w, st) = (r, (w', st')) ->
    log w' = log w ++ events ->
    navigations events <> [] ->
    navigations events = [lit "/(tabs)/friends"] /\
    exists u,
      currentUser w' = Some u /\
      users w' !! uid u
      = Some (User.mk (uid u) (trim (Onboarding.name st)) (Onboarding.dob st)).
Proof.
  intros svc w st r w' st' events Hrun Hlog Hnav.
  destruct (handleSubmit_outcomes svc w st)
    as (w2 & st2 & evs & Hrun2 & Hlog2 & Hcases).
  rewrite Hrun in Hrun2. inversion Hrun2; subst r w2 st2.
  rewrite Hlog in Hlog2. apply app_inv_head in Hlog2. subst evs.
  destruct Hcases as [(_ & Hn & _) | [(id & _ & _ & Hn & _) | (id & u & H)]];
    try contradiction.
  cbv zeta in H. destruct H as (_ & _ & Hn & Husers & Hu & Huid).
  split; [exact Hn |]. exists u. split; [exact Hu |].
  rewrite Huid, Husers. apply lookup_insert_eq.
Qed.

(** X8.  A run of [handleSubmit] attempts at most one profile write, whatever
    the input and whatever the services answer; a document it writes sits
    under its own id, has a non-empty name and a dob of the shape
    YYYY-MM-DD; and if every stored profile sat under its own id before the
    run, the same holds after it. *)
Theorem handleSubmit_keeps_profiles_keyed :
  forall svc w st r w' st' events,
    Onboarding.handleSubmit svc (w, st) = (r, (w', st')) ->
    log w' = log w ++ events ->
    (length (Spec.usersWrites events) <= 1)%nat /\
    (forall key doc,
       (key, doc) ∈ Spec.usersWrites events ->
       User.id doc = key /\ truthy (User.name doc) = true /\
       Spec.DateShaped (User.dob doc)) /\
    (KeyedById (users w) -> KeyedById (users w')).
Proof.
  intros svc w st r w' st' events Hrun Hlog.
  destruct (handleSubmit_outcomes svc w st)
    as (w2 & st2 & evs & Hrun2 & Hlog2 & Hcases).
  rewrite Hrun in Hrun2. inversion Hrun2; subst r w2 st2.
  rewrite Hlog in Hlog2. apply app_inv_head in Hlog2. subst evs.
  assert (Hdoc : validForm st = true ->
            truthy (trim (Onboarding.name st)) = true /\
            Spec.DateShaped (Onboarding.dob st)).
  { intros Hv. unfold validForm in Hv. rewrite !andb_true_iff in Hv.
    split; [tauto |]. apply test_dateRegex_shaped. tauto. }
  destruct Hcases as [(Hw & _ & Hu) | [(id & H) | (id & u & H)]].
  - rewrite Hw, Hu. split; [cbn; lia |]. split; [| auto].
    intros key doc Hin. inversion Hin.
  - cbv zeta in H. destruct H as (Hv & Hw & _ & Hu). rewrite Hw, Hu.
    split; [cbn; lia |]. split; [| auto].
    intros key doc Hin. apply list_elem_of_singleton in Hin. inversion Hin; subst.
    destruct (Hdoc Hv). repeat split; assumption.
  - cbv zeta in H. destruct H as (Hv & Hw & _ & Hu & _). rewrite Hw, Hu.
    split; [cbn; lia |]. split.
    + intros key doc Hin. apply list_elem_of_singleton in Hin. inversion Hin; subst.
      destruct (Hdoc Hv). repeat split; assumption.
    + intros Hkeyed key doc Hlook.
      destruct (decide (id = key)) as [-> | Hne].
      * rewrite lookup_insert_eq in Hlook. inversion Hlook. reflexivity.
      * rewrite lookup_insert_ne in Hlook by assumption. now apply Hkeyed.
Qed.

(** X9.  Submitting the form twice under the same identity leaves one profile
    for that identity, the second one: the write is a full overwrite. *)
Theorem handleSubmit_last_write_wins :
  forall svc w st1 st2 id wa,
    validForm st1 = true ->
    validForm st2 = true ->
    truthy id = true ->
    Firebase.ensureAuthenticated svc w = (Returned id, wa) ->
    usersSet_answer svc (tick wa) = None ->
    usersSet_answer svc (S (tick wa)) = None ->
    exists w1 st1' w2 st2',
      Onboarding.handleSubmit svc (w, st1) = (Returned tt, (w1, st1')) /\
      Onboarding.handleSubmit svc (w1, st2) = (Returned tt, (w2, st2')) /\
      users w2
      = <[id := User.mk id (trim (Onboarding.name st2)) (Onboarding.dob st2)]> (users w) /\
      forall key, key <> id -> users w2 !! key = users w !! key.
Proof.
  intros svc w st1 st2 id wa Hv1 Hv2 Hid Hauth Hack1 Hack2.
  assert (Hshape : forall st, validForm st = true -> Spec.DateShaped (Onboarding.dob st)).
  { intros st Hv. apply test_dateRegex_shaped. unfold validForm in Hv.
    rewrite !andb_true_iff in Hv. tauto. }
  destruct (handleSubmit_cases svc w st1) as [[_ Hrun1] | [Hv' _]]; [| congruence].
  rewrite save_run, Hauth in Hrun1. cbv zeta in Hrun1.
  rewrite Hack1, (trim_shaped _ (Hshape _ Hv1)) in Hrun1.
  destruct (ensureAuthenticated_holds _ _ _ _ Hauth) as (u & Hu & Huid).
  destruct (ensureAuthenticated_events _ _ _ _ Hauth) as (Husers & _).
  do 2 eexists. 
  match type of Hrun1 with
  | _ = (_, (?w1, _)) =>
      assert (Hauth2 : Firebase.ensureAuthenticated svc w1 = (Returned id, w1))
  end.
  { rewrite <- Huid. apply ensureAuthenticated_signed_in; [exact Hu | now rewrite Huid]. }
  match type of Hrun1 with
  | _ = (_, (?w1, _)) =>
      destruct (handleSubmit_cases svc w1 st2) as [[_ Hrun2] | [Hv' _]]; [| congruence]
  end.
  rewrite save_run, Hauth2 in Hrun2. cbv zeta in Hrun2. cbn [tick] in Hrun2.
  rewrite Hack2, (trim_shaped _ (Hshape _ Hv2)) in Hrun2.
  do 2 eexists.
  split; [exact Hrun1 |]. split; [exact Hrun2 |].
  cbn [users]. rewrite Husers, insert_insert_eq.
  split; [reflexivity |].
  intros key Hne. now rewrite lookup_insert_ne.
Qed.

(** ** The start screen *)

Lemma checkUserStatus_run svc w st :
  HomeScreen.checkUserStatus svc (w, st) =
  match Firebase.ensureAuthenticated svc w with
  | (Returned id, w1) =>
      match usersGet_answer svc (tick w1) with
      | None =>
          match users w1 !! id with
          | Some _ =>
              (Returned tt,
               (World.mk (S (tick w1)) (currentUser w1) (users w1) (albums w1)
                  (log w1 ++ [UsersDocGet id; RouterReplace (lit "/(tabs)/friends")]),
                HomeScreen.mkState false (HomeScreen.needsOnboarding st)))
          | None =>
              (Returned tt,
               (World.mk (S (tick w1)) (currentUser w1) (users w1) (albums w1)
                  (log w1 ++ [UsersDocGet id]),
                HomeScreen.mkState false true))
          end
      | Some e =>
          (Returned tt,
           (World.mk (S (tick w1)) (currentUser w1) (users w1) (albums w1)
              (log w1 ++ [UsersDocGet id;
                          ConsoleError (lit "Error checking user status:") e]),
            HomeScreen.mkState false true))
      end
  | (Thrown e, w1) =>
      (Returned tt,
       (World.mk (tick w1) (currentUser w1) (users w1) (albums w1)
          (log w1 ++ [ConsoleError (lit "Error checking user status:") e]),
        HomeScreen.mkState false true))
  end.
Proof.
  unfold HomeScreen.checkUserStatus, tryFinally, tryCatch, bind, onSnd, onFst.
  cbn [fst snd].
  destruct (Firebase.ensureAuthenticated svc w) as [[id | e] w1]; cbn [fst snd].
  - unfold users_doc_get, bind, remote. cbn [tick advance emit].
    destruct (usersGet_answer svc (tick w1)) as [e |]; cbn.
    + unfold emit; cbn. rewrite <- ?app_assoc; reflexivity.
    + destruct (users w1 !! id); cbn; unfold emit; cbn;
        rewrite <- ?app_assoc; reflexivity.
  - cbn. reflexivity.
Qed.

(** X10.  [checkUserStatus] never throws and always ends the loading state; it
    changes neither collection.  Either it navigates to the friends tab,
    and then the signed-in user has a stored profile, or it does not
    navigate and the onboarding form is what the screen shows. *)
Theorem checkUserStatus_routes_or_onboards :
  forall svc w st,
    exists w' st' events,
      HomeScreen.checkUserStatus svc (w, st) = (Returned tt, (w', st')) /\
      log w' = log w ++ events /\
      users w' = users w /\ albums w' = albums w /\
      HomeScreen.isLoading st' = false /\
      ((navigations events = [lit "/(tabs)/friends"] /\
        exists u, currentUser w' = Some u /\ is_Some (users w' !! uid u))
       \/
       (navigations events = [] /\
        HomeScreen.render st' = HomeScreen.OnboardingScreen)).
Proof.
  intros svc w st. rewrite checkUserStatus_run.
  destruct (Firebase.ensureAuthenticated svc w) as [[id | e] w1] eqn:Hauth;
    destruct (ensureAuthenticated_events _ _ _ _ Hauth)
      as (Husers & Halbums & evs & Hlog & Hevs);
    destruct (authEvents_silent _ Hevs) as (_ & Hn & _);
    unfold navigations in *.
  - destruct (ensureAuthenticated_holds _ _ _ _ Hauth) as (u & Hu & Huid).
    destruct (usersGet_answer svc (tick w1)) as [e |].
    + do 2 eexists.
      exists (evs ++ [UsersDocGet id;
                      ConsoleError (lit "Error checking user status:") e]).
      split; [reflexivity |]. cbn [log users albums].
      split; [rewrite Hlog, <- app_assoc; reflexivity |].
      repeat (split; [first [assumption | reflexivity] |]).
      right. rewrite omap_app, Hn. split; reflexivity.
    + destruct (users w1 !! id) as [doc |] eqn:Hdoc.
      * do 2 eexists.
        exists (evs ++ [UsersDocGet id; RouterReplace (lit "/(tabs)/friends")]).
        split; [reflexivity |]. cbn [log users albums currentUser].
        split; [rewrite Hlog, <- app_assoc; reflexivity |].
        repeat (split; [first [assumption | reflexivity] |]).
        left. rewrite omap_app, Hn. split; [reflexivity |].
        exists u. split; [exact Hu |]. rewrite Huid, Hdoc. eauto.
      * do 2 eexists. exists (evs ++ [UsersDocGet id]).
        split; [reflexivity |]. cbn [log users albums].
        split; [rewrite Hlog, <- app_assoc; reflexivity |].
        repeat (split; [first [assumption | reflexivity] |]).
        right. rewrite omap_app, Hn. split; reflexivity.
  - do 2 eexists.
    exists (evs ++ [ConsoleError (lit "Error checking user status:") e]).
    split; [reflexivity |]. cbn [log users albums].
    split; [rewrite Hlog, <- app_assoc; reflexivity |].
    repeat (split; [first [assumption | reflexivity] |]).
    right. rewrite omap_app, Hn. split; reflexivity.
Qed.

(** X11.  A read error sends a user with a stored profile back to onboarding:
    when the profile lookup is rejected, the app does not navigate and shows
    the onboarding form, whatever the collection holds. *)
Theorem checkUserStatus_read_error_onboards :
  forall svc w st id w1 e,
    Firebase.ensureAuthenticated svc w = (Returned id, w1) ->
    usersGet_answer svc (tick w1) = Some e ->
    exists w' st',
      HomeScreen.checkUserStatus svc (w, st) = (Returned tt, (w', st')) /\
      log w' = log w1 ++ [UsersDocGet id;
                          ConsoleError (lit "Error checking user status:") e] /\
      HomeScreen.render st' = HomeScreen.OnboardingScreen.
Proof.
  intros svc w st id w1 e Hauth Hrej.
  rewrite checkUserStatus_run, Hauth, Hrej.
  do 2 eexists. repeat split.
Qed.

(** X12.  After a submission that stored the profile, the next start of the app
    finds it: with the lookup answered, [checkUserStatus] navigates to the
    friends tab and does not ask for onboarding. *)
Theorem checkUserStatus_after_onboarding :
  forall svc w st id wa home,
    validForm st = true ->
    truthy id = true ->
    Firebase.ensureAuthenticated svc w = (Returned id, wa) ->
    usersSet_answer svc (tick wa) = None ->
    usersGet_answer svc (S (tick wa)) = None ->
    exists w1 st' w2,
      Onboarding.handleSubmit svc (w, st) = (Returned tt, (w1, st')) /\
      HomeScreen.checkUserStatus svc (w1, home)
      = (Returned tt,
         (w2, HomeScreen.mkState false (HomeScreen.needsOnboarding home))) /\
      log w2 = log w1 ++ [UsersDocGet id; RouterReplace (lit "/(tabs)/friends")].
Proof.
  intros svc w st id wa home Hv Hid Hauth Hack Hget.
  destruct (handleSubmit_cases svc w st) as [[_ Hrun] | [Hv' _]]; [| congruence].
  rewrite save_run, Hauth in Hrun. cbv zeta in Hrun. rewrite Hack in Hrun.
  destruct (ensureAuthenticated_holds _ _ _ _ Hauth) as (u & Hu & Huid).
  do 2 eexists.
  match type of Hrun with
  | _ = (_, (?w1, _)) =>
      assert (Hauth2 : Firebase.ensureAuthenticated svc w1 = (Returned id, w1))
  end.
  { rewrite <- Huid. apply ensureAuthenticated_signed_in; [exact Hu | now rewrite Huid]. }
  eexists. split; [exact Hrun |].
  rewrite checkUserStatus_run, Hauth2. cbn [tick users]. rewrite Hget.
  rewrite lookup_insert_eq. split; reflexivity.
Qed.

(** ** The roster view *)

Lemma fetchUsers_failed_run svc w st e :
  usersGet_answer svc (tick w) = Some e ->
  FriendsTab.fetchUsers svc (w, st) =
  (Returned tt,
   (World.mk (S (tick w)) (currentUser w) (users w) (albums w)
      (log w ++ [UsersGet; ConsoleError (lit "Error fetching users:") e]),
    FriendsTab.mkState (FriendsTab.users st) (FriendsTab.currentUserUID st) false
      (Some (lit "Failed to load friends")))).
Proof.
  intros Hrej.
  unfold FriendsTab.fetchUsers, tryFinally, tryCatch, bind, onSnd, onFst.
  cbn [fst snd FriendsTab.setIsLoading FriendsTab.setError modify].
  unfold users_get, bind, remote. cbn [tick advance emit].
  rewrite Hrej. cbn. unfold emit; cbn. rewrite <- ?app_assoc. reflexivity.
Qed.

(** X13.  [fetchUsers] never throws, reads with one request and changes neither
    collection; it always ends the loading state and leaves the tracked
    identity alone. *)
Theorem fetchUsers_never_throws :
  forall svc w st,
    exists w' st' rest,
      FriendsTab.fetchUsers svc (w, st) = (Returned tt, (w', st')) /\
      log w' = log w ++ UsersGet :: rest /\
      Forall (fun ev => Spec.isRemote ev = false) rest /\
      tick w' = S (tick w) /\
      users w' = users w /\ albums w' = albums w /\
      currentUser w' = currentUser w /\
      FriendsTab.isLoading st' = false /\
      FriendsTab.currentUserUID st' = FriendsTab.currentUserUID st.
Proof.
  intros svc w st.
  destruct (usersGet_answer svc (tick w)) as [e |] eqn:Hget.
  - rewrite (fetchUsers_failed_run _ _ _ _ Hget).
    do 2 eexists. exists [ConsoleError (lit "Error fetching users:") e].
    repeat split. repeat constructor.
  - rewrite (fetchUsers_run _ _ _ Hget).
    do 2 eexists. exists []. repeat split. constructor.
Qed.

(** X14.  When the fetch is rejected the error is logged, the view keeps the
    roster it had and sets the error text, and what the screen shows is that
    text, not the kept roster. *)
Theorem fetchUsers_failure_shows_error :
  forall svc w st e,
    usersGet_answer svc (tick w) = Some e ->
    exists w' st',
      FriendsTab.fetchUsers svc (w, st) = (Returned tt, (w', st')) /\
      log w' = log w ++ [UsersGet; ConsoleError (lit "Error fetching users:") e] /\
      FriendsTab.users st' = FriendsTab.users st /\
      FriendsView.render st' = FriendsView.ErrorText (lit "Failed to load friends").
Proof.
  intros svc w st e Hrej.
  rewrite (fetchUsers_failed_run _ _ _ _ Hrej).
  do 2 eexists. repeat split.
Qed.

(** X15.  After an answered fetch the screen shows the empty notice exactly when
    the collection is empty, and otherwise a list with one name line per
    stored profile. *)
Theorem fetchUsers_view :
  forall svc w st,
    usersGet_answer svc (tick w) = None ->
    exists w' st',
      FriendsTab.fetchUsers svc (w, st) = (Returned tt, (w', st')) /\
      (users w = ∅ -> FriendsView.render st' = FriendsView.NoFriendsFound) /\
      (users w <> ∅ ->
       exists names,
         FriendsView.render st' = FriendsView.FriendList names /\
         length names = size (users w)).
Proof.
  intros svc w st Hack.
  rewrite (fetchUsers_run _ _ _ Hack).
  do 2 eexists. split; [reflexivity |].
  unfold FriendsView.render.
  cbn [FriendsTab.isLoading FriendsTab.error FriendsTab.users].
  assert (Hlen : length (Array.sort (FriendsTab.byName svc)
                           (snd <$> map_to_list (users w))) = size (users w)).
  { rewrite (Permutation_length (sort_Permutation _ _)).
    rewrite length_fmap. apply length_map_to_list. }
  rewrite Hlen. split.
  - intros ->. reflexivity.
  - intros Hne. eexists.
    destruct (size (users w)) as [| n] eqn:Hsize.
    + apply map_size_empty_iff in Hsize. contradiction.
    + cbn [Nat.eqb]. split; [reflexivity |].
      rewrite length_fmap. rewrite Hlen. reflexivity.
Qed.

Lemma keyed_ids (m : gmap jsstring User.t) :
  KeyedById m -> User.id <$> (snd <$> map_to_list m) = fst <$> map_to_list m.
Proof.
  intros Hkeyed.
  assert (H : Forall (fun kd => m !! kd.1 = Some kd.2) (map_to_list m)).
  { apply Forall_forall. intros [k d] Hin. now apply elem_of_map_to_list. }
  induction H as [| [k d] l Hkd _ IH]; [reflexivity |].
  cbn in Hkd. cbn. rewrite (Hkeyed _ _ Hkd). cbn in IH. now rewrite IH.
Qed.

(** X16.  When every stored profile sits under its own id, the roster a fetch
    yields has pairwise distinct ids (the list keys of the view), and with
    an identity tracked the entries marked as the current user are exactly
    the profile stored under that identity: at most one entry is marked. *)
Theorem fetchUsers_marks_current_user :
  forall svc w st id,
    KeyedById (users w) ->
    FriendsTab.currentUserUID st = Some id ->
    usersGet_answer svc (tick w) = None ->
    exists w' st',
      FriendsTab.fetchUsers svc (w, st) = (Returned tt, (w', st')) /\
      NoDup (User.id <$> FriendsTab.users st') /\
      forall item,
        item ∈ FriendsTab.users st' ->
        (FriendsView.isCurrentUser st' item = true <-> users w !! id = Some item).
Proof.
  intros svc w st id Hkeyed Hid Hack.
  rewrite (fetchUsers_run _ _ _ Hack).
  do 2 eexists. split; [reflexivity |].
  cbn [FriendsTab.users].
  pose proof (sort_Permutation (FriendsTab.byName svc) (snd <$> map_to_list (users w)))
    as Hperm.
  split.
  - rewrite Hperm, (keyed_ids _ Hkeyed). apply NoDup_fst_map_to_list.
  - intros item Hin. rewrite Hperm in Hin.
    apply list_elem_of_fmap in Hin as ([k d] & -> & Hin).
    apply elem_of_map_to_list in Hin. cbn [snd].
    unfold FriendsView.isCurrentUser. cbn [FriendsTab.currentUserUID].
    rewrite Hid, bool_decide_eq_true, (Hkeyed _ _ Hin).
    split.
    + intros ->. exact Hin.
    + intros Hlook. pose proof (Hkeyed _ _ Hin). pose proof (Hkeyed _ _ Hlook).
      congruence.
Qed.

Lemma initCurrentUser_run w fs :
  FriendsView.initCurrentUser (w, fs) =
  (Returned tt,
   (w, FriendsTab.mkState (FriendsTab.users fs)
         (match currentUser w with
          | Some u => Some (uid u)
          | None => None
          end)
         (FriendsTab.isLoading fs) (FriendsTab.error fs))).
Proof.
  unfold FriendsView.initCurrentUser, Firebase.getCurrentUserUID, bind, onFst, onSnd,
    get, ret.
  cbn [fst snd FriendsView.setCurrentUserUID modify]. destruct w; reflexivity.
Qed.

(** X17.  End to end: after a submission that stored the profile, mounting the
    roster view (identity first, then the fetch) yields a roster that holds
    the submitted profile, and its name line carries the "(You)" mark. *)
Theorem roster_shows_submitted_profile :
  forall svc w st id wa fs0,
    validForm st = true ->
    Firebase.ensureAuthenticated svc w = (Returned id, wa) ->
    usersSet_answer svc (tick wa) = None ->
    usersGet_answer svc (S (tick wa)) = None ->
    exists w1 st1 w2 fs,
      Onboarding.handleSubmit svc (w, st) = (Returned tt, (w1, st1)) /\
      FriendsView.mount svc (w1, fs0) = (Returned tt, (w2, fs)) /\
      let doc := User.mk id (trim (Onboarding.name st)) (Onboarding.dob st) in
      doc ∈ FriendsTab.users fs /\
      FriendsView.userNameText fs doc = trim (Onboarding.name st) ++ lit " (You)".
Proof.
  intros svc w st id wa fs0 Hv Hauth Hack Hget.
  assert (Hshape : Spec.DateShaped (Onboarding.dob st)).
  { apply test_dateRegex_shaped. unfold validForm in Hv.
    rewrite !andb_true_iff in Hv. tauto. }
  destruct (handleSubmit_cases svc w st) as [[_ Hrun] | [Hv' _]]; [| congruence].
  rewrite save_run, Hauth in Hrun. cbv zeta in Hrun.
  rewrite Hack, (trim_shaped _ Hshape) in Hrun.
  destruct (ensureAuthenticated_holds _ _ _ _ Hauth) as (u & Hu & Huid).
  match type of Hrun with
  | _ = (_, (?w1, ?st1)) => exists w1, st1
  end.
  unfold FriendsView.mount, bind.
  rewrite initCurrentUser_run. cbn [currentUser].
  rewrite fetchUsers_run by (cbn [tick]; exact Hget).
  do 2 eexists. split; [exact Hrun |]. split; [reflexivity |].
  rewrite Hu.
  cbv zeta. split.
  - cbn [FriendsTab.users users].
    rewrite (sort_Permutation (FriendsTab.byName svc)).
    apply list_elem_of_fmap.
    exists (id, User.mk id (trim (Onboarding.name st)) (Onboarding.dob st)).
    split; [reflexivity |].
    apply elem_of_map_to_list, lookup_insert_eq.
  - unfold FriendsView.userNameText, FriendsView.isCurrentUser.
    cbn [FriendsTab.currentUserUID User.id User.name].
    rewrite Huid, bool_decide_eq_true_2 by reflexivity. reflexivity.
Qed.

(** ** The album view *)

Lemma uploadMedia_run svc uri type w st user :
  AlbumTab.currentUser st = Some user ->
  AlbumTab.uploadMedia svc uri type (w, st) =
  let st' := AlbumTab.mkState (AlbumTab.albumItems st) (AlbumTab.currentUser st)
               (AlbumTab.isLoading st) false in
  match Firebase.ensureAuthenticated svc w with
  | (Returned _, w1) =>
      match Cloudinary.uploadToCloudinary svc uri type w1 with
      | (Returned cloudinaryUrl, w2) =>
          let albumItem :=
            AlbumData.mk cloudinaryUrl (User.name user) (date_now svc (tick w2)) type in
          match albumsAdd_answer svc (tick w2) with
          | Returned key =>
              (Returned tt,
               (World.mk (S (tick w2)) (currentUser w2) (users w2)
                  (albums w2 ++ [mkAlbumDoc key albumItem])
                  (log w2 ++ [AlbumsAdd albumItem;
                              Alert (lit "Success") (lit "Media uploaded successfully!")]),
                st'))
          | Thrown e =>
              (Returned tt,
               (uploadFailed e
                  (World.mk (S (tick w2)) (currentUser w2) (users w2) (albums w2)
                     (log w2 ++ [AlbumsAdd albumItem])),
                st'))
          end
      | (Thrown e, w2) => (Returned tt, (uploadFailed e w2, st'))
      end
  | (Thrown e, w1) => (Returned tt, (uploadFailed e w1, st'))
  end.
Proof.
  intros Huser.
  unfold AlbumTab.uploadMedia, bind at 1, onSnd at 1, get. cbn [fst snd].
  rewrite Huser.
  unfold tryFinally, tryCatch, bind, onSnd, onFst.
  cbn [fst snd AlbumTab.setIsUploading modify AlbumTab.albumItems AlbumTab.currentUser
         AlbumTab.isLoading AlbumTab.isUploading].
  rewrite Huser.
  destruct (Firebase.ensureAuthenticated svc w) as [[id | e] w1]; cbn [fst snd].
  2: { unfold uploadFailed, consoleError, alert, modify, emit; cbn.
       rewrite <- ?app_assoc. reflexivity. }
  destruct (Cloudinary.uploadToCloudinary svc uri type w1) as [[url | e] w2];
    cbn [fst snd].
  2: { unfold uploadFailed, consoleError, alert, modify, emit; cbn.
       rewrite <- ?app_assoc. reflexivity. }
  unfold Date_now, albums_add, bind, remote, get, ret. cbn [fst snd tick advance emit].
  destruct (albumsAdd_answer svc (tick w2)) as [key | e].
  - unfold alert, modify, emit, setAlbums; cbn. rewrite <- ?app_assoc. reflexivity.
  - unfold uploadFailed, consoleError, alert, modify, emit, throw; cbn.
    rewrite <- ?app_assoc. reflexivity.
Qed.

(** The request an upload sends. *)
Lemma uploadToCloudinary_events svc fileUri resourceType w :
  exists req rest w1 r,
    Cloudinary.uploadToCloudinary svc fileUri resourceType w = (r, w1) /\
    r = Spec.uploadSettles (fetch_answer svc (tick w) req) /\
    req_url req = lit "https://api.cloudinary.com/v1_1/" ++ Cloudinary.CLOUD_NAME
                    ++ lit "/" ++ Cloudinary.resourceTypeName resourceType
                    ++ lit "/upload" /\
    log w1 = log w ++ Fetch req :: rest /\
    Forall (fun ev => Spec.isRemote ev = false) rest /\
    albumWrites rest = [] /\
    tick w1 = S (tick w) /\
    currentUser w1 = currentUser w /\ users w1 = users w /\ albums w1 = albums w.
Proof.
  unfold Cloudinary.uploadToCloudinary, fetch, Spec.uploadSettles.
  match goal with
  | |- context [fetch_answer svc _ ?req] => exists req
  end.
  unfold tryCatch, bind, remote, await, consoleError, throw, ret, modify.
  cbv beta iota zeta. cbn [tick advance emit].
  match goal with
  | |- context [fetch_answer svc (tick w) ?req] =>
      destruct (fetch_answer svc (tick w) req) as [response | e]
  end.
  - destruct (ok response); cbn [negb].
    + destruct (json response) as [result | e].
      * destruct (World.error result) as [err |].
        -- eexists [_]. do 2 eexists. split; [reflexivity |].
           unfold emit, advance; cbn [log tick currentUser users albums].
           rewrite <- ?app_assoc. repeat split. repeat constructor.
        -- exists []. do 2 eexists. split; [reflexivity |].
           repeat split. constructor.
      * eexists [_]. do 2 eexists. split; [reflexivity |].
        unfold emit, advance; cbn [log tick currentUser users albums].
        rewrite <- ?app_assoc. repeat split. repeat constructor.
    + eexists [_]. do 2 eexists. split; [reflexivity |].
      unfold emit, advance; cbn [log tick currentUser users albums].
      rewrite <- ?app_assoc. repeat split. repeat constructor.
  - eexists [_]. do 2 eexists. split; [reflexivity |].
    unfold emit, advance; cbn [log tick currentUser users albums].
    rewrite <- ?app_assoc. repeat split. repeat constructor.
Qed.

(** One upload, in full: the request it sends, how it settles, and the
    world it leaves. *)
Lemma uploadToCloudinary_sends svc fileUri resourceType w :
  exists req r rest,
    Cloudinary.uploadToCloudinary svc fileUri resourceType w
    = (r, World.mk (S (tick w)) (currentUser w) (users w) (albums w)
            (log w ++ Fetch req :: rest)) /\
    req = mkRequest
            (lit "https://api.cloudinary.com/v1_1/" ++ Cloudinary.CLOUD_NAME
               ++ lit "/" ++ Cloudinary.resourceTypeName resourceType ++ lit "/upload")
            (lit "POST")
            [ (lit "file",
               FormFile fileUri
                 (match resourceType with
                  | image => lit "image/jpeg"
                  | video => lit "video/mp4"
                  end)
                 (lit "upload." ++
                  match resourceType with
                  | image => lit "jpg"
                  | video => lit "mp4"
                  end));
              (lit "upload_preset", FormText Cloudinary.UPLOAD_PRESET);
              (lit "cloud_name", FormText Cloudinary.CLOUD_NAME) ]
            [(lit "Content-Type", lit "multipart/form-data")] /\
    r = Spec.uploadSettles (fetch_answer svc (tick w) req) /\
    rest = match r with
           | Returned _ => []
           | Thrown e => [ConsoleError (lit "Error uploading to Cloudinary:") e]
           end.
Proof.
  unfold Cloudinary.uploadToCloudinary, fetch, Spec.uploadSettles.
  match goal with
  | |- context [fetch_answer svc _ ?req] => exists req
  end.
  unfold tryCatch, bind, remote, await, consoleError, throw, ret, modify.
  cbv beta iota zeta. cbn [tick advance emit].
  match goal with
  | |- context [fetch_answer svc (tick w) ?req] =>
      destruct (fetch_answer svc (tick w) req) as [response | e]
  end.
  - destruct (ok response); cbn [negb].
    + destruct (json response) as [result | e].
      * destruct (World.error result) as [err |].
        -- do 2 eexists. split; [| split; [reflexivity | split; reflexivity]].
           unfold emit, advance; cbn [log tick currentUser users albums].
           rewrite <- app_assoc. reflexivity.
        -- do 2 eexists. split; [| split; [reflexivity | split; reflexivity]].
           reflexivity.
      * do 2 eexists. split; [| split; [reflexivity | split; reflexivity]].
        unfold emit, advance; cbn [log tick currentUser users albums].
        rewrite <- app_assoc. reflexivity.
    + do 2 eexists. split; [| split; [reflexivity | split; reflexivity]].
      unfold emit, advance; cbn [log tick currentUser users albums].
      rewrite <- app_assoc. reflexivity.
  - do 2 eexists. split; [| split; [reflexivity | split; reflexivity]].
    unfold emit, advance; cbn [log tick currentUser users albums].
    rewrite <- app_assoc. reflexivity.
Qed.


(** X18.  With a profile loaded and every step answered, [uploadMedia] appends
    exactly one entry to the album: its url is the one the media service
    returned, its uploader is the name of the loaded profile, its timestamp
    is the clock reading taken after the upload, and its type is the one
    asked for; the run ends with the success alert and the uploading flag
    off. *)
Theorem uploadMedia_records_entry :
  forall svc uri type w st user id w1 url w2 key,
    AlbumTab.currentUser st = Some user ->
    Firebase.ensureAuthenticated svc w = (Returned id, w1) ->
    Cloudinary.uploadToCloudinary svc uri type w1 = (Returned url, w2) ->
    albumsAdd_answer svc (tick w2) = Returned key ->
    exists w' st' events,
      AlbumTab.uploadMedia svc uri type (w, st) = (Returned tt, (w', st')) /\
      albums w'
      = albums w
          ++ [mkAlbumDoc key
                (AlbumData.mk url (User.name user) (date_now svc (tick w2)) type)] /\
      log w' = log w2 ++ events /\
      albumWrites events
      = [AlbumData.mk url (User.name user) (date_now svc (tick w2)) type] /\
      last events = Some (Alert (lit "Success") (lit "Media uploaded successfully!")) /\
      AlbumTab.isUploading st' = false /\
      AlbumTab.albumItems st' = AlbumTab.albumItems st.
Proof.
  intros svc uri type w st user id w1 url w2 key Huser Hauth Hup Hadd.
  rewrite (uploadMedia_run _ _ _ _ _ _ Huser), Hauth, Hup. cbv zeta. rewrite Hadd.
  destruct (ensureAuthenticated_events _ _ _ _ Hauth) as (_ & Halb1 & _).
  destruct (uploadToCloudinary_events svc uri type w1)
    as (req & rest & w2' & r & Hrun & _ & _ & _ & _ & _ & _ & _ & _ & Halb2).
  rewrite Hup in Hrun. inversion Hrun; subst w2' r.
  do 2 eexists.
  exists [AlbumsAdd (AlbumData.mk url (User.name user) (date_now svc (tick w2)) type);
          Alert (lit "Success") (lit "Media uploaded successfully!")].
  split; [reflexivity |]. cbn [albums log].
  rewrite Halb2, Halb1. repeat split.
Qed.

(** X19.  When the media upload fails, [uploadMedia] never contacts the album
    collection: no entry is written, the collection is as before, and the
    run ends with the logged error and the failure alert. *)
Theorem uploadMedia_upload_failure :
  forall svc uri type w st user id w1 e w2,
    AlbumTab.currentUser st = Some user ->
    Firebase.ensureAuthenticated svc w = (Returned id, w1) ->
    Cloudinary.uploadToCloudinary svc uri type w1 = (Thrown e, w2) ->
    exists st' events,
      AlbumTab.uploadMedia svc uri type (w, st) = (Returned tt, (uploadFailed e w2, st')) /\
      albums (uploadFailed e w2) = albums w /\
      log (uploadFailed e w2) = log w ++ events /\
      albumWrites events = [] /\
      last events
      = Some (Alert (lit "Error") (lit "Failed to upload media. Please try again.")) /\
      AlbumTab.isUploading st' = false.
Proof.
  intros svc uri type w st user id w1 e w2 Huser Hauth Hup.
  rewrite (uploadMedia_run _ _ _ _ _ _ Huser), Hauth, Hup. cbv zeta.
  destruct (ensureAuthenticated_events _ _ _ _ Hauth) as (_ & Halb1 & evs & Hlog1 & Hevs).
  destruct (authEvents_silent _ Hevs) as (_ & _ & Ha & _).
  destruct (uploadToCloudinary_events svc uri type w1)
    as (req & rest & w2' & r & Hrun & _ & _ & Hlog2 & _ & Hrest & _ & _ & _ & Halb2).
  rewrite Hup in Hrun. inversion Hrun; subst w2' r.
  eexists.
  exists (evs ++ Fetch req :: rest
            ++ [ConsoleError (lit "Error uploading media:") e;
                Alert (lit "Error") (lit "Failed to upload media. Please try again.")]).
  split; [reflexivity |]. cbn [uploadFailed albums log].
  rewrite Halb2, Halb1, Hlog2, Hlog1.
  split; [reflexivity |].
  split; [rewrite <- !app_assoc; reflexivity |].
  unfold albumWrites in *.
  split; [rewrite omap_app, Ha; cbn; rewrite omap_app, Hrest; reflexivity |].
  split; [| reflexivity].
  rewrite app_comm_cons, !app_assoc.
  change [ConsoleError (lit "Error uploading media:") e;
          Alert (lit "Error") (lit "Failed to upload media. Please try again.")]
    with ([ConsoleError (lit "Error uploading media:") e]
            ++ [Alert (lit "Error") (lit "Failed to upload media. Please try again.")]).
  rewrite app_assoc. apply last_snoc.
Qed.

(** The guard of [uploadMedia], as a run. *)
Lemma uploadMedia_without_profile_run svc uri type w st :
  AlbumTab.currentUser st = None ->
  AlbumTab.uploadMedia svc uri type (w, st) =
  (Returned tt, (emit (Alert (lit "Error") (lit "Please complete your profile first")) w, st)).
Proof.
  intros Hnone.
  unfold AlbumTab.uploadMedia, bind at 1, onSnd at 1, get. cbn [fst snd].
  rewrite Hnone. reflexivity.
Qed.

Lemma nonRemote_silent events :
  Forall (fun ev => Spec.isRemote ev = false) events ->
  fetches events = [] /\ albumWrites events = [] /\ Spec.usersWrites events = [].
Proof.
  induction 1 as [| ev events Hev _ IH]; [repeat split |].
  destruct IH as (H1 & H2 & H3).
  unfold Spec.usersWrites, albumWrites, fetches in *.
  destruct ev; try discriminate Hev; cbn; auto.
Qed.

Lemma authEvents_no_fetch events :
  Forall (fun ev => isAuthEvent ev = true) events -> fetches events = [].
Proof. intros H. now destruct (authEvents_silent _ H) as (_ & _ & _ & ?). Qed.

(** Every way a run of [uploadMedia] with a loaded profile can end. *)
Lemma uploadMedia_outcomes svc uri type w st user :
  AlbumTab.currentUser st = Some user ->
  exists w' events,
    AlbumTab.uploadMedia svc uri type (w, st)
    = (Returned tt,
       (w', AlbumTab.mkState (AlbumTab.albumItems st) (AlbumTab.currentUser st)
              (AlbumTab.isLoading st) false)) /\
    log w' = log w ++ events /\
    users w' = users w /\
    (length (fetches events) <= 1)%nat /\
    (forall req, req ∈ fetches events ->
       req_url req = lit "https://api.cloudinary.com/v1_1/" ++ Cloudinary.CLOUD_NAME
                       ++ lit "/" ++ Cloudinary.resourceTypeName type ++ lit "/upload") /\
    ((albumWrites events = [] /\ albums w' = albums w)
     \/
     (exists data,
        albumWrites events = [data] /\
        length (fetches events) = 1%nat /\
        AlbumData.uploaderName data = User.name user /\
        AlbumData.type data = type /\
        (albums w' = albums w \/ exists key, albums w' = albums w ++ [mkAlbumDoc key data]))).
Proof.
  intros Huser. rewrite (uploadMedia_run _ _ _ _ _ _ Huser). cbv zeta.
  destruct (Firebase.ensureAuthenticated svc w) as [[id | e] w1] eqn:Hauth;
    destruct (ensureAuthenticated_events _ _ _ _ Hauth)
      as (Husers1 & Halb1 & evs & Hlog1 & Hevs);
    destruct (authEvents_silent _ Hevs) as (_ & _ & Ha & Hf);
    unfold albumWrites, fetches in *.
  2: { eexists.
       exists (evs ++ [ConsoleError (lit "Error uploading media:") e;
                       Alert (lit "Error") (lit "Failed to upload media. Please try again.")]).
       split; [reflexivity |]. cbn [uploadFailed log users albums].
       rewrite Hlog1, <- app_assoc, !omap_app, Ha, Hf.
       repeat split; try assumption; cbn; try lia.
       - intros req Hin. inversion Hin.
       - left. split; [reflexivity | assumption]. }
  destruct (uploadToCloudinary_events svc uri type w1)
    as (req & rest & w2 & r & Hrun & _ & Hurl & Hlog2 & Hrest & _ & _ & _ & Husers2 & Halb2).
  destruct (nonRemote_silent _ Hrest) as (Hrf & Hra & _).
  unfold albumWrites, fetches in *.
  rewrite Hrun.
  destruct r as [url | e].
  2: { eexists.
       exists (evs ++ Fetch req :: rest
                 ++ [ConsoleError (lit "Error uploading media:") e;
                     Alert (lit "Error") (lit "Failed to upload media. Please try again.")]).
       split; [reflexivity |]. cbn [uploadFailed log users albums].
       rewrite Hlog2, Hlog1, <- !app_assoc, Husers2, Halb2.
       rewrite !omap_app, Ha, Hf. cbn. rewrite !omap_app, Hra, Hrf. cbn.
       repeat split; try assumption; try lia.
       - intros req' Hin. apply list_elem_of_singleton in Hin. now subst.
       - left. split; [reflexivity | assumption]. }
  destruct (albumsAdd_answer svc (tick w2)) as [key | e].
  - eexists.
    exists (evs ++ Fetch req :: rest
              ++ [AlbumsAdd (AlbumData.mk url (User.name user) (date_now svc (tick w2)) type);
                  Alert (lit "Success") (lit "Media uploaded successfully!")]).
    split; [reflexivity |]. cbn [log users albums].
    rewrite Hlog2, Hlog1, <- !app_assoc, Husers2, Halb2.
    rewrite !omap_app, Ha, Hf. cbn. rewrite !omap_app, Hra, Hrf. cbn.
    repeat split; try assumption; try lia.
    + intros req' Hin. apply list_elem_of_singleton in Hin. now subst.
    + right. eexists. repeat split. right. exists key. now rewrite Halb1.
  - eexists.
    exists (evs ++ Fetch req :: rest
              ++ [AlbumsAdd (AlbumData.mk url (User.name user) (date_now svc (tick w2)) type);
                  ConsoleError (lit "Error uploading media:") e;
                  Alert (lit "Error") (lit "Failed to upload media. Please try again.")]).
    split; [reflexivity |]. cbn [uploadFailed log users albums].
    rewrite Hlog2, Hlog1, <- !app_assoc, Husers2, Halb2.
    rewrite !omap_app, Ha, Hf. cbn. rewrite !omap_app, Hra, Hrf. cbn.
    repeat split; try assumption; try lia.
    + intros req' Hin. apply list_elem_of_singleton in Hin. now subst.
    + right. eexists. repeat split. left. assumption.
Qed.

(** X20.  [uploadMedia] never throws and never touches the profiles or the
    items on screen.  A run sends at most one media request and attempts at
    most one album write; an entry it writes is attributed to the loaded
    profile and has the type asked for, and the album grows by that one
    entry or not at all. *)
Theorem uploadMedia_at_most_one_entry :
  forall svc uri type w st,
    exists w' st' events,
      AlbumTab.uploadMedia svc uri type (w, st) = (Returned tt, (w', st')) /\
      log w' = log w ++ events /\
      users w' = users w /\
      AlbumTab.albumItems st' = AlbumTab.albumItems st /\
      AlbumTab.currentUser st' = AlbumTab.currentUser st /\
      (length (fetches events) <= 1)%nat /\
      (length (albumWrites events) <= 1)%nat /\
      (forall data user,
         data ∈ albumWrites events ->
         AlbumTab.currentUser st = Some user ->
         AlbumData.uploaderName data = User.name user /\ AlbumData.type data = type) /\
      (albums w' = albums w \/
       exists key data, albumWrites events = [data] /\
                        albums w' = albums w ++ [mkAlbumDoc key data]).
Proof.
  intros svc uri type w st.
  destruct (AlbumTab.currentUser st) as [user |] eqn:Huser.
  - destruct (uploadMedia_outcomes svc uri type w st user Huser)
      as (w' & events & Hrun & Hlog & Husers & Hf & _ & Hcases).
    rewrite Huser in Hrun.
    exists w'. eexists. exists events.
    split; [exact Hrun |]. cbn [AlbumTab.albumItems AlbumTab.currentUser].
    repeat (split; [first [assumption | reflexivity] |]).
    destruct Hcases as [(Hw & Halb) | (data & Hw & _ & Hname & Htype & Halb)];
      rewrite Hw.
    + split; [cbn; lia |]. split; [| now left].
      intros data user' Hin. inversion Hin.
    + split; [cbn; lia |]. split.
      * intros data' user' Hin Heq. apply list_elem_of_singleton in Hin.
        inversion Heq; subst. split; [assumption | reflexivity].
      * destruct Halb as [Halb | (key & Halb)]; [now left |].
        right. exists key, data. split; [reflexivity | assumption].
  - do 2 eexists. exists [Alert (lit "Error") (lit "Please complete your profile first")].
    split; [apply uploadMedia_without_profile_run; exact Huser |].
    split; [reflexivity |]. split; [reflexivity |]. split; [reflexivity |].
    split; [exact Huser |]. split; [cbn; lia |]. split; [cbn; lia |].
    split; [| now left].
    intros data user Hin. inversion Hin.
Qed.

Lemma fetchCurrentUser_run svc w st :
  AlbumTab.fetchCurrentUser svc (w, st) =
  match currentUser w with
  | Some u =>
      if truthy (uid u) then
        let w1 := World.mk (S (tick w)) (currentUser w) (users w) (albums w)
                    (log w ++ [UsersDocGet (uid u)]) in
        match usersGet_answer svc (tick w) with
        | None =>
            match users w !! uid u with
            | Some data =>
                (Returned tt,
                 (w1, AlbumTab.mkState (AlbumTab.albumItems st) (Some data)
                        (AlbumTab.isLoading st) (AlbumTab.isUploading st)))
            | None => (Returned tt, (w1, st))
            end
        | Some e =>
            (Returned tt,
             (emit (ConsoleError (lit "Error fetching current user:") e) w1, st))
        end
      else (Returned tt, (w, st))
  | None => (Returned tt, (w, st))
  end.
Proof.
  unfold AlbumTab.fetchCurrentUser, Firebase.getCurrentUserUID, tryCatch, bind,
    onFst, onSnd, get, ret.
  cbn [fst snd].
  destruct (currentUser w) as [u |] eqn:Hu; [| destruct w; reflexivity].
  destruct (truthy (uid u)); [| destruct w; reflexivity].
  unfold users_doc_get, bind, remote, get, ret. cbn [tick advance emit].
  destruct (usersGet_answer svc (tick w)) as [e |] eqn:Hget;
    cbn -[lit]; rewrite Hget; unfold emit, advance; cbn -[lit].
  - rewrite Hu. reflexivity.
  - destruct (users w !! uid u); cbn -[lit]; rewrite Hu; reflexivity.
Qed.

(** X21.  [fetchCurrentUser] never throws and changes neither the collections
    nor who is signed in.  With nobody signed in it makes no remote call at
    all; otherwise the profile the view holds afterwards is the one it held
    or the stored profile of the signed-in user, never another user's. *)
Theorem fetchCurrentUser_loads_own_profile :
  forall svc w st,
    exists w' st',
      AlbumTab.fetchCurrentUser svc (w, st) = (Returned tt, (w', st')) /\
      users w' = users w /\ albums w' = albums w /\
      currentUser w' = currentUser w /\
      (currentUser w = None -> w' = w /\ st' = st) /\
      (AlbumTab.currentUser st' = AlbumTab.currentUser st \/
       exists u doc,
         currentUser w = Some u /\ users w !! uid u = Some doc /\
         AlbumTab.currentUser st' = Some doc).
Proof.
  intros svc w st. rewrite fetchCurrentUser_run.
  destruct (currentUser w) as [u |] eqn:Hu.
  2: { do 2 eexists. split; [reflexivity |]. repeat split; auto. }
  destruct (truthy (uid u)).
  2: { do 2 eexists. split; [reflexivity |].
       repeat split; first [discriminate | auto]. }
  cbv zeta.
  destruct (usersGet_answer svc (tick w)) as [e |].
  - do 2 eexists. split; [reflexivity |].
    repeat split; first [discriminate | auto].
  - destruct (users w !! uid u) as [doc |] eqn:Hdoc.
    + do 2 eexists. split; [reflexivity |].
      split; [reflexivity |]. split; [reflexivity |]. split; [reflexivity |].
      split; [discriminate |].
      right. exists u, doc. repeat split. exact Hdoc.
    + do 2 eexists. split; [reflexivity |].
      repeat split; first [discriminate | auto].
Qed.

(** X22.  After a submission that stored the profile, the album view loads it on
    mount, so the upload guard passes and uploads are attributed to the
    trimmed name. *)
Theorem album_profile_after_onboarding :
  forall svc w st id wa ast,
    validForm st = true ->
    truthy id = true ->
    Firebase.ensureAuthenticated svc w = (Returned id, wa) ->
    usersSet_answer svc (tick wa) = None ->
    usersGet_answer svc (S (tick wa)) = None ->
    exists w1 st1 w2 ast',
      Onboarding.handleSubmit svc (w, st) = (Returned tt, (w1, st1)) /\
      AlbumTab.fetchCurrentUser svc (w1, ast) = (Returned tt, (w2, ast')) /\
      AlbumTab.currentUser ast'
      = Some (User.mk id (trim (Onboarding.name st)) (Onboarding.dob st)).
Proof.
  intros svc w st id wa ast Hv Hid Hauth Hack Hget.
  assert (Hshape : Spec.DateShaped (Onboarding.dob st)).
  { apply test_dateRegex_shaped. unfold validForm in Hv.
    rewrite !andb_true_iff in Hv. tauto. }
  destruct (handleSubmit_cases svc w st) as [[_ Hrun] | [Hv' _]]; [| congruence].
  rewrite save_run, Hauth in Hrun. cbv zeta in Hrun.
  rewrite Hack, (trim_shaped _ Hshape) in Hrun.
  destruct (ensureAuthenticated_holds _ _ _ _ Hauth) as (u & Hu & Huid).
  match type of Hrun with
  | _ = (_, (?w1, ?st1)) => exists w1, st1
  end.
  rewrite fetchCurrentUser_run. cbn [currentUser tick users].
  do 2 eexists. split; [exact Hrun |].
  rewrite Hu, Huid, Hid, Hget. cbv zeta. rewrite lookup_insert_eq.
  split; reflexivity.
Qed.

(** X23.  A pick that was cancelled, that failed, or that carries no asset with
    a usable uri does nothing at all: no request, no alert, no change of
    state, even when no profile is loaded. *)
Theorem pickMedia_ignores_empty_pick :
  forall svc response w st,
    AlbumView.didCancel response = true \/
    (exists m, AlbumView.errorMessage response = Some m /\ truthy m = true) \/
    AlbumView.assets response = None \/
    AlbumView.assets response = Some [] \/
    (exists asset rest,
       AlbumView.assets response = Some (asset :: rest) /\
       (AlbumView.uri asset = None \/ AlbumView.uri asset = Some [])) ->
    AlbumView.pickMedia svc response (w, st) = (Returned tt, (w, st)).
Proof.
  intros svc response w st H. unfold AlbumView.pickMedia.
  destruct (AlbumView.didCancel response); [reflexivity |]. cbn [orb].
  destruct H as [H | [(m & Hm & Ht) | H]]; [discriminate H | |].
  { rewrite Hm, Ht. reflexivity. }
  destruct (match AlbumView.errorMessage response with
            | Some m => truthy m
            | None => false
            end); [reflexivity |].
  destruct H as [-> | [-> | (asset & rest & -> & [-> | ->])]]; reflexivity.
Qed.

(** X24.  A pick with a usable first asset, made with a profile loaded and
    every step answered, sends exactly one media request and records
    exactly one album entry.  When the asset's type starts with "video" the
    request goes to the video endpoint and the entry is a video; for every
    other asset, one without a type included, the request goes to the image
    endpoint and the entry is an image.  The request carries the asset's
    uri, and only the first asset of the pick is used. *)
Theorem pickMedia_kind_by_type :
  forall svc w st user u ty rest id w1 url w2 key,
    let response :=
      AlbumView.mkPickerResponse false None
        (Some (AlbumView.mkAsset (Some u) ty :: rest)) in
    let kind :=
      match ty with
      | Some t => if AlbumView.startsWith t (lit "video") then video else image
      | None => image
      end in
    AlbumTab.currentUser st = Some user ->
    truthy u = true ->
    Firebase.ensureAuthenticated svc w = (Returned id, w1) ->
    Cloudinary.uploadToCloudinary svc u kind w1 = (Returned url, w2) ->
    albumsAdd_answer svc (tick w2) = Returned key ->
    exists w' st' events req mime name,
      AlbumView.pickMedia svc response (w, st) = (Returned tt, (w', st')) /\
      log w' = log w ++ events /\
      fetches events = [req] /\
      req_url req = lit "https://api.cloudinary.com/v1_1/" ++ Cloudinary.CLOUD_NAME
                      ++ lit "/" ++ Cloudinary.resourceTypeName kind ++ lit "/upload" /\
      (lit "file", FormFile u mime name) ∈ req_body req /\
      albumWrites events
      = [AlbumData.mk url (User.name user) (date_now svc (tick w2)) kind] /\
      albums w'
      = albums w
          ++ [mkAlbumDoc key
                (AlbumData.mk url (User.name user) (date_now svc (tick w2)) kind)].
Proof.
  intros svc w st user u ty rest id w1 url w2 key response kind
    Huser Hu Hauth Hup Hadd.
  assert (Hpick : AlbumView.pickMedia svc response (w, st)
                  = AlbumTab.uploadMedia svc u kind (w, st)).
  { unfold AlbumView.pickMedia, response, kind. cbn. rewrite Hu.
    destruct ty as [t |]; [destruct (AlbumView.startsWith t (lit "video")) |];
      reflexivity. }
  rewrite Hpick, (uploadMedia_run _ _ _ _ _ _ Huser), Hauth, Hup. cbv zeta.
  rewrite Hadd.
  destruct (ensureAuthenticated_events _ _ _ _ Hauth)
    as (_ & Halb1 & evs & Hlog1 & Hevs).
  destruct (authEvents_silent _ Hevs) as (_ & _ & Ha & Hf).
  destruct (uploadToCloudinary_sends svc u kind w1)
    as (req & r & more & Hrun & Hreq & _ & Hmore).
  rewrite Hup in Hrun. inversion Hrun as [[Hr Hw2]]. subst r. cbn in Hmore. subst more.
  do 2 eexists.
  exists (evs ++ [Fetch req;
                  AlbumsAdd (AlbumData.mk url (User.name user)
                               (date_now svc (tick w2)) kind);
                  Alert (lit "Success") (lit "Media uploaded successfully!")]).
  exists req. do 2 eexists.
  split; [reflexivity |].
  cbn [log albums]. rewrite Hw2. cbn [log albums].
  split; [rewrite Hlog1, <- !app_assoc; reflexivity |].
  unfold fetches, albumWrites in *.
  split; [rewrite omap_app, Hf; reflexivity |].
  split; [rewrite Hreq; reflexivity |].
  split; [rewrite Hreq; cbn [req_body]; left |].
  split; [rewrite omap_app, Ha; reflexivity |].
  rewrite Halb1. reflexivity.
Qed.

(** X25.  After an upload that recorded its entry, the next list the listener
    hands over holds that entry, with the url the media service returned and
    the uploader's name, and the screen shows the grid. *)
Theorem uploaded_entry_reaches_feed :
  forall svc uri type w st user id w1 url w2 key,
    Spec.OrdersByTimestampDesc svc ->
    AlbumTab.currentUser st = Some user ->
    Firebase.ensureAuthenticated svc w = (Returned id, w1) ->
    Cloudinary.uploadToCloudinary svc uri type w1 = (Returned url, w2) ->
    albumsAdd_answer svc (tick w2) = Returned key ->
    exists w' st' items st'',
      AlbumTab.uploadMedia svc uri type (w, st) = (Returned tt, (w', st')) /\
      AlbumTab.deliver svc (w', st') = (Returned items, (w', st'')) /\
      AlbumItem.mk key url (User.name user) (date_now svc (tick w2)) type ∈ items /\
      length items = S (length (albums w)) /\
      AlbumView.render st'' = AlbumView.Grid items.
Proof.
  intros svc uri type w st user id w1 url w2 key Hquery Huser Hauth Hup Hadd.
  rewrite (uploadMedia_run _ _ _ _ _ _ Huser), Hauth, Hup. cbv zeta. rewrite Hadd.
  destruct (ensureAuthenticated_events _ _ _ _ Hauth) as (_ & Halb1 & _).
  destruct (uploadToCloudinary_events svc uri type w1)
    as (req & rest & w2' & r & Hrun & _ & _ & _ & _ & _ & _ & _ & _ & Halb2).
  rewrite Hup in Hrun. inversion Hrun; subst w2' r.
  do 2 eexists. rewrite deliver_run. cbv zeta. cbn [albums].
  do 2 eexists. split; [reflexivity |]. split; [reflexivity |].
  destruct (Hquery (albums w2
                      ++ [mkAlbumDoc key
                            (AlbumData.mk url (User.name user)
                               (date_now svc (tick w2)) type)]))
    as [Hperm _].
  assert (Hlen : length (AlbumTab.itemOf <$>
                   albumsByTimestampDesc svc
                     (albums w2
                        ++ [mkAlbumDoc key
                              (AlbumData.mk url (User.name user)
                                 (date_now svc (tick w2)) type)]))
                 = S (length (albums w))).
  { rewrite length_fmap, (Permutation_length Hperm), length_app, Halb2, Halb1.
    cbn. lia. }
  split; [| split; [exact Hlen |]].
  - apply list_elem_of_fmap.
    exists (mkAlbumDoc key
              (AlbumData.mk url (User.name user) (date_now svc (tick w2)) type)).
    split; [reflexivity |]. rewrite Hperm. apply elem_of_app. right. now left.
  - unfold AlbumView.render. cbn [AlbumTab.isLoading AlbumTab.albumItems albums].
    rewrite Hlen. reflexivity.
Qed.

(** X26.  When the documents of the album have pairwise distinct keys, every
    list the listener hands over has pairwise distinct item ids (the list
    keys of the grid) and one item per document. *)
Theorem album_feed_ids_distinct :
  forall svc w st,
    Spec.OrdersByTimestampDesc svc ->
    NoDup (doc_id <$> albums w) ->
    exists items st',
      AlbumTab.deliver svc (w, st) = (Returned items, (w, st')) /\
      NoDup (AlbumItem.id <$> items) /\
      length items = length (albums w) /\
      AlbumTab.albumItems st' = items /\
      AlbumTab.isLoading st' = false.
Proof.
  intros svc w st Hquery Hnodup.
  rewrite deliver_run. cbv zeta. do 2 eexists. split; [reflexivity |].
  destruct (Hquery (albums w)) as [Hperm _].
  split; [| split; [| split; reflexivity]].
  - rewrite <- list_fmap_compose.
    assert (Heq : (AlbumItem.id ∘ AlbumTab.itemOf) <$> albumsByTimestampDesc svc (albums w)
                  = doc_id <$> albumsByTimestampDesc svc (albums w)).
    { apply list_fmap_ext. intros i d _. reflexivity. }
    rewrite Heq, Hperm. exact Hnodup.
  - rewrite length_fmap. apply Permutation_length. exact Hperm.
Qed.

(** ** Media uploads *)

(** X27.  An upload sends exactly one request, a POST to the upload endpoint
    of the resource type carrying the file, the preset and the cloud name,
    and moves the clock by one.  It returns a URL exactly when that request
    is answered with an ok status, a readable body and no error payload, and
    the URL is then the body's secure_url; a non-ok status fails the upload
    whatever the body holds.  A successful upload logs nothing more, a
    failed one logs its error once. *)
Theorem uploadToCloudinary_succeeds_iff :
  forall svc fileUri resourceType w,
    exists req r rest,
      Cloudinary.uploadToCloudinary svc fileUri resourceType w
      = (r, World.mk (S (tick w)) (currentUser w) (users w) (albums w)
              (log w ++ Fetch req :: rest)) /\
      req_url req = lit "https://api.cloudinary.com/v1_1/" ++ Cloudinary.CLOUD_NAME
                      ++ lit "/" ++ Cloudinary.resourceTypeName resourceType
                      ++ lit "/upload" /\
      req_method req = lit "POST" /\
      req_body req
      = [ (lit "file",
           FormFile fileUri
             (match resourceType with
              | image => lit "image/jpeg"
              | video => lit "video/mp4"
              end)
             (lit "upload." ++
              match resourceType with
              | image => lit "jpg"
              | video => lit "mp4"
              end));
          (lit "upload_preset", FormText Cloudinary.UPLOAD_PRESET);
          (lit "cloud_name", FormText Cloudinary.CLOUD_NAME) ] /\
      (forall url,
         r = Returned url
         <->
         (exists response result,
            fetch_answer svc (tick w) req = Returned response /\
            ok response = true /\
            json response = Returned result /\
            World.error result = None /\
            secure_url result = url)) /\
      (forall url, r = Returned url -> rest = []) /\
      (forall e,
         r = Thrown e ->
         rest = [ConsoleError (lit "Error uploading to Cloudinary:") e]).
Proof.
  intros svc fileUri resourceType w.
  destruct (uploadToCloudinary_sends svc fileUri resourceType w)
    as (req & r & rest & Hrun & Hreq & Hr & Hrest).
  exists req, r, rest. split; [exact Hrun |].
  split; [rewrite Hreq; reflexivity |].
  split; [rewrite Hreq; reflexivity |].
  split; [rewrite Hreq; reflexivity |].
  split; [| split].
  - intros url. rewrite Hr. unfold Spec.uploadSettles. split.
    + intros Hout.
      destruct (fetch_answer svc (tick w) req) as [response | e]; [| discriminate].
      destruct (ok response) eqn:Hok; [| discriminate].
      destruct (json response) as [result | e] eqn:Hjson; [| discriminate].
      destruct (World.error result) as [err |] eqn:Herr; [discriminate |].
      inversion Hout. exists response, result. repeat split; assumption.
    + intros (response & result & -> & Hok & Hjson & Herr & Hsec).
      rewrite Hok, Hjson, Herr, Hsec. reflexivity.
  - intros url Hret. rewrite Hrest, Hret. reflexivity.
  - intros e Hthrown. rewrite Hrest, Hthrown. reflexivity.
Qed.

Lemma uploadPromises_events svc fileUris resourceType :
  forall w, exists promises w1 events,
    Cloudinary.uploadPromises svc fileUris resourceType w = (Returned promises, w1) /\
    log w1 = log w ++ events /\
    length (fetches events) = length fileUris /\
    tick w1 = (tick w + length fileUris)%nat /\
    currentUser w1 = currentUser w /\ users w1 = users w /\ albums w1 = albums w.
Proof.
  induction fileUris as [| uri rest IH]; intros w.
  - exists [], w, []. rewrite app_nil_r. repeat split. cbn. lia.
  - cbn [Cloudinary.uploadPromises]. unfold bind at 1, settle at 1.
    destruct (uploadToCloudinary_events svc uri resourceType w)
      as (req & more & wa & r & Hrun & _ & _ & Hlog & Hmore & _ & Htick & Hcu & Hus & Hal).
    rewrite Hrun.
    destruct (IH wa) as (ps & wb & evs & Hps & Hlogb & Hlen & Htickb & Hcub & Husb & Halb).
    unfold bind at 1. rewrite Hps.
    destruct (nonRemote_silent _ Hmore) as (Hf & _).
    exists (r :: ps), wb, (Fetch req :: more ++ evs).
    split; [reflexivity |].
    split; [rewrite Hlogb, Hlog, <- app_assoc; reflexivity |].
    unfold fetches in *. cbn. rewrite omap_app, Hf. cbn. rewrite Hlen.
    repeat split; try congruence. rewrite Htickb, Htick. lia.
Qed.

(** X28.  A batch of N files sends N media requests, whether or not some of them
    fail, and changes none of the application's data; an empty batch sends
    none and returns the empty list. *)
Theorem uploadMultipleToCloudinary_sends_all :
  forall svc fileUris resourceType w,
    exists r w' events,
      Cloudinary.uploadMultipleToCloudinary svc fileUris resourceType w = (r, w') /\
      log w' = log w ++ events /\
      length (fetches events) = length fileUris /\
      tick w' = (tick w + length fileUris)%nat /\
      currentUser w' = currentUser w /\ users w' = users w /\ albums w' = albums w /\
      (fileUris = [] -> r = Returned [] /\ w' = w).
Proof.
  intros svc fileUris resourceType w.
  destruct (uploadPromises_events svc fileUris resourceType w)
    as (ps & w1 & evs & Hps & Hlog & Hlen & Htick & Hcu & Hus & Hal).
  unfold Cloudinary.uploadMultipleToCloudinary, tryCatch, bind, get, await.
  rewrite Hps.
  destruct (Promise.all (settle_order svc (tick w)) ps) as [urls | e] eqn:Hall.
  - exists (Returned urls), w1, evs.
    split; [reflexivity |].
    repeat (split; [assumption |]).
    intros ->. cbn in Hps. inversion Hps; subst.
    change (@nil (Outcome jsstring)) with (Returned <$> @nil jsstring) in Hall.
    rewrite Promise_all_fulfils in Hall. split; congruence.
  - unfold consoleError, throw, modify, emit. cbv beta iota.
    eexists. eexists.
    exists (evs ++ [ConsoleError (lit "Error uploading multiple files to Cloudinary:") e]).
    split; [reflexivity |]. cbn [log tick currentUser users albums].
    split; [rewrite Hlog, <- app_assoc; reflexivity |].
    unfold fetches in *. rewrite omap_app. cbn. rewrite app_nil_r.
    repeat (split; [assumption |]).
    intros ->. cbn in Hps. inversion Hps; subst.
    change (@nil (Outcome jsstring)) with (Returned <$> @nil jsstring) in Hall.
    rewrite Promise_all_fulfils in Hall. discriminate Hall.
Qed.

(** ** The URL helper, without transforms *)

(** X29.  When every option is absent or falsy (0 or NaN for the numbers), the
    URL has no transform part: it is the one built without options, the
    upload path followed directly by the publicId. *)
Theorem getOptimizedImageUrl_no_transform :
  forall publicId w h q,
    (forall n, w = Some n -> numTruthy n = false) ->
    (forall n, h = Some n -> numTruthy n = false) ->
    (forall v, q = Some v -> Cloudinary.qualityTruthy v = false) ->
    Cloudinary.getOptimizedImageUrl publicId
      (Some (Cloudinary.mkTransformations w h q None None))
    = Cloudinary.getOptimizedImageUrl publicId None /\
    Cloudinary.getOptimizedImageUrl publicId None
    = lit "https://res.cloudinary.com/your-cloud-name/image/upload/" ++ publicId.
Proof.
  intros publicId w h q Hw Hh Hq. split; [| reflexivity].
  unfold Cloudinary.getOptimizedImageUrl, Cloudinary.pushIf.
  cbn [Cloudinary.width Cloudinary.height Cloudinary.quality Cloudinary.format
         Cloudinary.crop].
  destruct w as [n |]; [rewrite (Hw n eq_refl) |];
    (destruct h as [m |]; [rewrite (Hh m eq_refl) |]);
    (destruct q as [v |]; [rewrite (Hq v eq_refl) |]); reflexivity.
Qed.

(** ** The further properties on sample and failing services *)

Lemma signOut_forgets_identity_witness :
  exists w1,
    Firebase.signOut Sample.services Sample.populated = (Returned tt, w1) /\
    Firebase.getCurrentUserUID w1 = (Returned None, w1).
Proof.
  destruct (signOut_forgets_identity Sample.services Sample.populated eq_refl)
    as (w1 & Hout & Hnone & _).
  exists w1. split; assumption.
Defined.

Lemma signOut_failure_keeps_identity_witness :
  exists w1,
    Firebase.signOut Faulty.noSignOut Sample.populated = (Thrown Faulty.failure, w1) /\
    Firebase.ensureAuthenticated Faulty.noSignOut w1 = (Returned (lit "uid-a"), w1).
Proof.
  destruct (signOut_failure_keeps_identity Faulty.noSignOut Sample.populated
              (mkFirebaseUser (lit "uid-a")) Faulty.failure eq_refl eq_refl eq_refl)
    as (w1 & Hout & _ & Hsame).
  exists w1. split; assumption.
Defined.

Lemma ensureAuthenticated_failure_propagates_witness :
  exists w1,
    Firebase.ensureAuthenticated Faulty.noSignIn Sample.fresh = (Thrown Faulty.failure, w1) /\
    currentUser w1 = None /\ tick w1 = 1%nat.
Proof.
  destruct (ensureAuthenticated_failure_propagates Faulty.noSignIn Sample.fresh
              Faulty.failure eq_refl eq_refl)
    as (w1 & Hrun & Hnone & Htick & _).
  exists w1. repeat split; assumption.
Defined.

Lemma handleSubmit_auth_failure_witness :
  exists w' st',
    Onboarding.handleSubmit Faulty.noSignIn (Sample.fresh, Sample.form)
    = (Returned tt, (w', st')) /\
    users w' = users Sample.fresh.
Proof.
  edestruct (handleSubmit_auth_failure Faulty.noSignIn Sample.fresh Sample.form)
    as (st' & Hrun & Husers & _); [reflexivity | reflexivity |].
  do 2 eexists. split; [exact Hrun | exact Husers].
Defined.

Lemma handleSubmit_write_rejected_witness :
  exists w' st',
    Onboarding.handleSubmit Faulty.noWrite (Sample.fresh, Sample.form)
    = (Returned tt, (w', st')) /\
    users w' = users Sample.fresh.
Proof.
  edestruct (handleSubmit_write_rejected Faulty.noWrite Sample.fresh Sample.form)
    as (w' & st' & events & Hrun & _ & _ & _ & Husers & _);
    [reflexivity | reflexivity | reflexivity |].
  exists w', st'. split; assumption.
Defined.

Lemma handleSubmit_navigates_only_when_stored_witness :
  exists w' st' u,
    Onboarding.handleSubmit Sample.services (Sample.fresh, Sample.form)
    = (Returned tt, (w', st')) /\
    currentUser w' = Some u /\
    users w' !! uid u = Some (User.mk (uid u) (lit "Ada") (lit "1990-12-25")).
Proof.
  edestruct (handleSubmit_navigates_only_when_stored Sample.services Sample.fresh
               Sample.form) as (_ & u & Hu & Hdoc).
  - vm_compute. reflexivity.
  - cbn [log Sample.fresh app]. reflexivity.
  - discriminate.
  - do 2 eexists. exists u. split; [vm_compute; reflexivity |].
    split; [exact Hu | exact Hdoc].
Defined.

Lemma handleSubmit_keeps_profiles_keyed_witness :
  exists w' st' events,
    Onboarding.handleSubmit Sample.services (Sample.fresh, Sample.form)
    = (Returned tt, (w', st')) /\
    log w' = events /\
    (length (Spec.usersWrites events) <= 1)%nat.
Proof.
  edestruct (handleSubmit_keeps_profiles_keyed Sample.services Sample.fresh
               Sample.form) as (Hlen & _).
  - vm_compute. reflexivity.
  - cbn [log Sample.fresh app]. reflexivity.
  - do 3 eexists. split; [vm_compute; reflexivity |].
    split; [reflexivity | exact Hlen].
Defined.

Lemma handleSubmit_last_write_wins_witness :
  exists w1 st1' w2 st2',
    Onboarding.handleSubmit Sample.services (Sample.fresh, Sample.form)
    = (Returned tt, (w1, st1')) /\
    Onboarding.handleSubmit Sample.services (w1, Faulty.form2)
    = (Returned tt, (w2, st2')) /\
    users w2
    = <[lit "uid-0" := User.mk (lit "uid-0") (lit "Ada Lovelace") (lit "1815-12-10")]>
        (users Sample.fresh).
Proof.
  destruct (handleSubmit_last_write_wins Sample.services Sample.fresh Sample.form
              Faulty.form2 (lit "uid-0") Sample.signedIn
              eq_refl eq_refl eq_refl eq_refl eq_refl eq_refl)
    as (w1 & st1' & w2 & st2' & H1 & H2 & Husers & _).
  exists w1, st1', w2, st2'. repeat split; assumption.
Defined.

Lemma checkUserStatus_read_error_onboards_witness :
  exists w' st',
    HomeScreen.checkUserStatus Faulty.noRead
      (Sample.populated, HomeScreen.mkState true false)
    = (Returned tt, (w', st')) /\
    is_Some (users w' !! lit "uid-a") /\
    HomeScreen.render st' = HomeScreen.OnboardingScreen.
Proof.
  destruct (checkUserStatus_read_error_onboards Faulty.noRead Sample.populated
              (HomeScreen.mkState true false) (lit "uid-a") Sample.populated
              Faulty.failure eq_refl eq_refl)
    as (w' & st' & Hrun & _ & Hview).
  exists w', st'. split; [exact Hrun |]. split; [| exact Hview].
  vm_compute in Hrun. inversion Hrun. vm_compute. eauto.
Defined.

Lemma checkUserStatus_after_onboarding_witness :
  exists w1 st' w2,
    Onboarding.handleSubmit Sample.services (Sample.fresh, Sample.form)
    = (Returned tt, (w1, st')) /\
    HomeScreen.checkUserStatus Sample.services (w1, HomeScreen.mkState true false)
    = (Returned tt, (w2, HomeScreen.mkState false false)).
Proof.
  destruct (checkUserStatus_after_onboarding Sample.services Sample.fresh Sample.form
              (lit "uid-0") Sample.signedIn (HomeScreen.mkState true false)
              eq_refl eq_refl eq_refl eq_refl eq_refl)
    as (w1 & st' & w2 & H1 & H2 & _).
  exists w1, st', w2. split; assumption.
Defined.

Lemma fetchUsers_failure_shows_error_witness :
  exists w' st',
    FriendsTab.fetchUsers Faulty.noRead (Sample.populated, Faulty.rosterOfAda)
    = (Returned tt, (w', st')) /\
    FriendsView.render st' = FriendsView.ErrorText (lit "Failed to load friends").
Proof.
  destruct (fetchUsers_failure_shows_error Faulty.noRead Sample.populated
              Faulty.rosterOfAda Faulty.failure eq_refl)
    as (w' & st' & Hrun & _ & _ & Hview).
  exists w', st'. split; assumption.
Defined.

Lemma fetchUsers_view_witness :
  exists w' st' names,
    FriendsTab.fetchUsers Sample.services (Sample.populated, Faulty.rosterOfAda)
    = (Returned tt, (w', st')) /\
    FriendsView.render st' = FriendsView.FriendList names /\
    length names = size (users Sample.populated).
Proof.
  destruct (fetchUsers_view Sample.services Sample.populated Faulty.rosterOfAda eq_refl)
    as (w' & st' & Hrun & _ & Hlist).
  destruct Hlist as (names & Hview & Hlen).
  { intros Hempty. apply (f_equal (fun m => m !! lit "uid-a")) in Hempty.
    vm_compute in Hempty. discriminate Hempty. }
  exists w', st', names. repeat split; assumption.
Defined.

Lemma populated_KeyedById : KeyedById (users Sample.populated).
Proof.
  intros key doc. cbn [users Sample.populated].
  rewrite !lookup_insert_Some, lookup_empty.
  intros [[<- <-] | [_ [[<- <-] | [_ [[<- <-] | [_ H]]]]]];
    first [reflexivity | discriminate H].
Qed.

Lemma fetchUsers_marks_current_user_witness :
  exists w' st',
    FriendsTab.fetchUsers Sample.services (Sample.populated, Faulty.rosterOfAda)
    = (Returned tt, (w', st')) /\
    NoDup (User.id <$> FriendsTab.users st').
Proof.
  destruct (fetchUsers_marks_current_user Sample.services Sample.populated
              Faulty.rosterOfAda (lit "uid-a") populated_KeyedById eq_refl eq_refl)
    as (w' & st' & Hrun & Hnodup & _).
  exists w', st'. split; assumption.
Defined.

(** On the sample roster, tracked as Ada, the name lines are
    "Ada (You)", "Bob", "Cy". *)
Example roster_sample_view :
  exists w',
    FriendsTab.fetchUsers Sample.services (Sample.populated, Faulty.rosterOfAda)
    = (Returned tt, (w', FriendsTab.mkState [Sample.ada; Sample.bob; Sample.cy]
                           (Some (lit "uid-a")) false None)) /\
    FriendsView.render
      (FriendsTab.mkState [Sample.ada; Sample.bob; Sample.cy]
         (Some (lit "uid-a")) false None)
    = FriendsView.FriendList [lit "Ada (You)"; lit "Bob"; lit "Cy"].
Proof. eexists. split; vm_compute; reflexivity. Qed.

Lemma roster_shows_submitted_profile_witness :
  exists w1 st1 w2 fs,
    Onboarding.handleSubmit Sample.services (Sample.fresh, Sample.form)
    = (Returned tt, (w1, st1)) /\
    FriendsView.mount Sample.services (w1, FriendsTab.mkState [] None true None)
    = (Returned tt, (w2, fs)) /\
    User.mk (lit "uid-0") (lit "Ada") (lit "1990-12-25") ∈ FriendsTab.users fs /\
    FriendsView.userNameText fs (User.mk (lit "uid-0") (lit "Ada") (lit "1990-12-25"))
    = lit "Ada (You)".
Proof.
  destruct (roster_shows_submitted_profile Sample.services Sample.fresh Sample.form
              (lit "uid-0") Sample.signedIn (FriendsTab.mkState [] None true None)
              eq_refl eq_refl eq_refl eq_refl)
    as (w1 & st1 & w2 & fs & H1 & H2 & Hin & Htext).
  exists w1, st1, w2, fs. repeat split; assumption.
Defined.

Lemma uploadMedia_records_entry_witness :
  exists w' st',
    AlbumTab.uploadMedia Sample.services (lit "file:///photo.jpg") image
      (Sample.populated, Faulty.albumOfAda)
    = (Returned tt, (w', st')) /\
    albums w'
    = albums Sample.populated
        ++ [mkAlbumDoc (lit "album-1")
              (AlbumData.mk (lit "https://res.cloudinary.com/media/0") (lit "Ada")
                 1700000000001 image)].
Proof.
  edestruct (uploadMedia_records_entry Sample.services (lit "file:///photo.jpg") image
               Sample.populated Faulty.albumOfAda Sample.ada)
    as (w' & st' & events & Hrun & Halbums & _).
  - reflexivity.
  - vm_compute. reflexivity.
  - vm_compute. reflexivity.
  - vm_compute. reflexivity.
  - exists w', st'. split; [exact Hrun | exact Halbums].
Defined.

Lemma uploadMedia_upload_failure_witness :
  exists w' st',
    AlbumTab.uploadMedia Faulty.noMedia (lit "file:///photo.jpg") image
      (Sample.populated, Faulty.albumOfAda)
    = (Returned tt, (w', st')) /\
    albums w' = albums Sample.populated.
Proof.
  edestruct (uploadMedia_upload_failure Faulty.noMedia (lit "file:///photo.jpg") image
               Sample.populated Faulty.albumOfAda Sample.ada)
    as (st' & events & Hrun & Halbums & _).
  - reflexivity.
  - vm_compute. reflexivity.
  - vm_compute. reflexivity.
  - do 2 eexists. split; [exact Hrun | exact Halbums].
Defined.

Lemma album_profile_after_onboarding_witness :
  exists w1 st1 w2 ast',
    Onboarding.handleSubmit Sample.services (Sample.fresh, Sample.form)
    = (Returned tt, (w1, st1)) /\
    AlbumTab.fetchCurrentUser Sample.services (w1, Faulty.albumOfNobody)
    = (Returned tt, (w2, ast')) /\
    AlbumTab.currentUser ast'
    = Some (User.mk (lit "uid-0") (lit "Ada") (lit "1990-12-25")).
Proof.
  destruct (album_profile_after_onboarding Sample.services Sample.fresh Sample.form
              (lit "uid-0") Sample.signedIn Faulty.albumOfNobody
              eq_refl eq_refl eq_refl eq_refl eq_refl)
    as (w1 & st1 & w2 & ast' & H1 & H2 & H3).
  exists w1, st1, w2, ast'. repeat split; assumption.
Defined.

Lemma pickMedia_ignores_empty_pick_witness :
  AlbumView.pickMedia Sample.services Faulty.cancelledPick
    (Sample.populated, Faulty.albumOfNobody)
  = (Returned tt, (Sample.populated, Faulty.albumOfNobody)).
Proof.
  exact (pickMedia_ignores_empty_pick Sample.services Faulty.cancelledPick
           Sample.populated Faulty.albumOfNobody (or_introl eq_refl)).
Defined.

Lemma pickMedia_kind_by_type_witness :
  exists w' st' req,
    AlbumView.pickMedia Sample.services Faulty.pickedVideo
      (Sample.populated, Faulty.albumOfAda)
    = (Returned tt, (w', st')) /\
    fetches (log w') = [req] /\
    req_url req = lit "https://api.cloudinary.com/v1_1/your-cloud-name/video/upload" /\
    albums w'
    = albums Sample.populated
        ++ [mkAlbumDoc (lit "album-1")
              (AlbumData.mk (lit "https://res.cloudinary.com/media/0") (lit "Ada")
                 1700000000001 video)].
Proof.
  edestruct (pickMedia_kind_by_type Sample.services Sample.populated Faulty.albumOfAda
               Sample.ada (lit "file:///clip.mp4") (Some (lit "video/mp4")) [])
    as (w' & st' & events & req & mime & name & Hrun & Hlog & Hfetch & Hurl & _ & _ & Halb).
  - reflexivity.
  - reflexivity.
  - vm_compute. reflexivity.
  - vm_compute. reflexivity.
  - vm_compute. reflexivity.
  - exists w', st', req. split; [exact Hrun |].
    split; [rewrite Hlog; exact Hfetch |].
    split; [exact Hurl | exact Halb].
Defined.

(** The picked video goes to the video endpoint and is recorded as a
    video. *)
Example pickMedia_sample_video :
  exists w' st' req,
    AlbumView.pickMedia Sample.services Faulty.pickedVideo
      (Sample.populated, Faulty.albumOfAda)
    = (Returned tt, (w', st')) /\
    fetches (log w') = [req] /\
    req_url req = lit "https://api.cloudinary.com/v1_1/your-cloud-name/video/upload" /\
    albumWrites (log w')
    = [AlbumData.mk (lit "https://res.cloudinary.com/media/0") (lit "Ada")
         1700000000001 video].
Proof.
  do 3 eexists. split; [vm_compute; reflexivity |].
  split; [vm_compute; reflexivity |]. split; vm_compute; reflexivity.
Qed.

Lemma uploaded_entry_reaches_feed_witness :
  exists w' st' items st'',
    AlbumTab.uploadMedia Sample.services (lit "file:///photo.jpg") image
      (Sample.populated, Faulty.albumOfAda)
    = (Returned tt, (w', st')) /\
    AlbumTab.deliver Sample.services (w', st') = (Returned items, (w', st'')) /\
    length items = 3%nat /\
    AlbumView.render st'' = AlbumView.Grid items.
Proof.
  edestruct (uploaded_entry_reaches_feed Sample.services (lit "file:///photo.jpg") image
               Sample.populated Faulty.albumOfAda Sample.ada)
    as (w' & st' & items & st'' & Hrun & Hfeed & _ & Hlen & Hview).
  - exact sample_OrdersByTimestampDesc.
  - reflexivity.
  - vm_compute. reflexivity.
  - vm_compute. reflexivity.
  - vm_compute. reflexivity.
  - exists w', st', items, st''. repeat split; assumption.
Defined.

Lemma album_feed_ids_distinct_witness :
  exists items st',
    AlbumTab.deliver Sample.services (Sample.populated, Faulty.albumOfNobody)
    = (Returned items, (Sample.populated, st')) /\
    NoDup (AlbumItem.id <$> items) /\
    length items = 2%nat.
Proof.
  destruct (album_feed_ids_distinct Sample.services Sample.populated
              Faulty.albumOfNobody sample_OrdersByTimestampDesc)
    as (items & st' & Hrun & Hnodup & Hlen & _).
  { apply (bool_decide_unpack _). vm_compute. exact I. }
  exists items, st'. repeat split; assumption.
Defined.

Lemma getOptimizedImageUrl_no_transform_witness :
  Cloudinary.getOptimizedImageUrl (lit "abc123")
    (Some (Cloudinary.mkTransformations (Some (Int 0)) (Some NaN)
             (Some (Cloudinary.QNum (Int 0))) None None))
  = lit "https://res.cloudinary.com/your-cloud-name/image/upload/abc123".
Proof.
  destruct (getOptimizedImageUrl_no_transform (lit "abc123") (Some (Int 0)) (Some NaN)
              (Some (Cloudinary.QNum (Int 0)))) as [Hsame Hurl].
  - intros n H. inversion H. reflexivity.
  - intros n H. inversion H. reflexivity.
  - intros v H. inversion H. reflexivity.
  - rewrite Hsame. exact Hurl.
Defined.
